(** * The e-commerce / student catalogue APIs of node_tut, embedded in Rocq

    Two programs of the repository are embedded:

    - [Persistent]: the file-backed Express server (the longest [index.js],
      with [readData], [writeData], [initializeData] and the async route
      handlers);
    - [InMemory]: [module_two/ecommerce-api/index.js], the same routes over
      two in-memory arrays.

    JavaScript values are a small inductive type, a record (a JS object) is
    a finite map from property names to values, the two global arrays are
    lists, and the handlers are written in a state-and-exception monad over
    the globals and a model of the file system. *)

From Stdlib Require Import ZArith String Ascii List Bool Lia.
From stdpp Require Import base option list gmap strings fin_maps.

Local Open Scope string_scope.

(** ** JavaScript values *)

Module JS.

(** The values a JSON request body, a query string or a snapshot file can
    put in a property or a variable.  Numbers are the integers (the only
    arithmetic of the programs is [length + 1]); [VNaN] is what [parseInt]
    gives on a non-numeric string.  Arrays and nested objects are opaque
    references [VObject]: the handlers only test them for truthiness and
    compare them with [===], which is reference identity. *)
Inductive value : Type :=
  | VUndefined
  | VNull
  | VBool (b : bool)
  | VNum (z : Z)
  | VNaN
  | VStr (s : string)
  | VObject (ref : positive).

#[global] Instance value_eq_dec : EqDecision value.
Proof. solve_decision. Defined.

(** [ToBoolean]: what [if (v)], [!v], [a || b] and [a && b] test. *)
Definition truthy (v : value) : bool :=
  match v with
  | VUndefined | VNull | VNaN => false
  | VBool b => b
  | VNum z => negb (z =? 0)%Z
  | VStr s => match s with EmptyString => false | String _ _ => true end
  | VObject _ => true
  end.

(** [a || b] *)
Definition js_or (a b : value) : value := if truthy a then a else b.

(** [a === b]: same type and same value; [NaN] equals nothing. *)
Definition strict_eq (a b : value) : bool :=
  match a, b with
  | VNaN, _ | _, VNaN => false
  | _, _ => bool_decide (a = b)
  end.

(** What a handler can throw (or an async handler reject with). *)
Inductive error : Type :=
  | SysError (code : string)   (* an fs error, [err.code] *)
  | SyntaxError                (* JSON.parse *)
  | TypeError.                 (* a method called on a non-string *)

(** [err.code] *)
Definition code (err : error) : value :=
  match err with
  | SysError c => VStr c
  | _ => VUndefined
  end.

Inductive result (A : Type) : Type :=
  | Ok (a : A)
  | Throw (e : error).
Arguments Ok {A} a.
Arguments Throw {A} e.

(** [String.prototype.toLowerCase], on ASCII letters. *)
Definition lower_ascii (a : ascii) : ascii :=
  let n := nat_of_ascii a in
  if (65 <=? n)%nat && (n <=? 90)%nat then ascii_of_nat (n + 32) else a.

Fixpoint lower (s : string) : string :=
  match s with
  | EmptyString => EmptyString
  | String a s' => String (lower_ascii a) (lower s')
  end.

(** [v.toLowerCase()]: a [TypeError] unless [v] is a string. *)
Definition toLowerCase (v : value) : result value :=
  match v with
  | VStr s => Ok (VStr (lower s))
  | _ => Throw TypeError
  end.

(** [parseInt(s)] on ASCII input: leading white space, an optional sign,
    an optional [0x] prefix, then the longest run of digits; [NaN] when
    there is no digit. *)
Definition is_space (a : ascii) : bool :=
  let n := nat_of_ascii a in
  ((9 <=? n)%nat && (n <=? 13)%nat) || (n =? 32)%nat.

Fixpoint skip_space (s : string) : string :=
  match s with
  | String a s' => if is_space a then skip_space s' else s
  | EmptyString => EmptyString
  end.

Definition digit_of (radix : Z) (a : ascii) : option Z :=
  let n := Z.of_nat (nat_of_ascii a) in
  let d := if (48 <=? n)%Z && (n <=? 57)%Z then Some (n - 48)%Z
           else if (97 <=? n)%Z && (n <=? 122)%Z then Some (n - 87)%Z
           else if (65 <=? n)%Z && (n <=? 90)%Z then Some (n - 55)%Z
           else None in
  match d with
  | Some k => if (k <? radix)%Z then Some k else None
  | None => None
  end.

Fixpoint digits (radix : Z) (s : string) (acc : option Z) : option Z :=
  match s with
  | EmptyString => acc
  | String a s' =>
      match digit_of radix a with
      | Some k => digits radix s' (Some (radix * default 0%Z acc + k)%Z)
      | None => acc
      end
  end.

Definition parseInt (s : string) : value :=
  let s := skip_space s in
  let '(sign, s) :=
    match s with
    | String "-" r => ((-1)%Z, r)
    | String "+" r => (1%Z, r)
    | _ => (1%Z, s)
    end in
  let '(radix, s) :=
    match s with
    | String "0" (String "x" r) | String "0" (String "X" r) => (16%Z, r)
    | _ => (10%Z, s)
    end in
  match digits radix s None with
  | Some n => VNum (sign * n)
  | None => VNaN
  end.

(** A JS object: property name to value.  Reading a property the object
    does not have gives [undefined]. *)
Abbreviation record := (gmap string value).

Definition field (r : record) (k : string) : value :=
  default VUndefined (r !! k).

(** The first element the callback accepts, with the index it is stored
    at: [find] returns a reference to the object in the array, and the
    index says which slot that reference denotes. *)
Fixpoint find_ref (f : record → bool) (l : list record)
  : option (nat * record) :=
  match l with
  | [] => None
  | r :: l' => if f r then Some (0%nat, r) else prod_map S id <$> find_ref f l'
  end.

(** [Array.prototype.find]; [None] is [undefined]. *)
Definition find (f : record → bool) (l : list record) : option record :=
  snd <$> find_ref f l.

(** [Array.prototype.findIndex]; [None] is [-1]. *)
Definition findIndex (f : record → bool) (l : list record) : option nat :=
  fst <$> find_ref f l.

(** [Array.prototype.filter] with a callback that may throw: the first
    exception aborts the scan. *)
Fixpoint filter (f : record → result bool) (l : list record)
  : result (list record) :=
  match l with
  | [] => Ok []
  | r :: l' =>
      match f r with
      | Throw e => Throw e
      | Ok b =>
          match filter f l' with
          | Throw e => Throw e
          | Ok rest => Ok (if b then r :: rest else rest)
          end
      end
  end.

(** The callback [p => p.id === parseInt(req.params.id)]. *)
Definition id_is (id : string) (p : record) : bool :=
  strict_eq (field p "id") (parseInt id).

(** The callback [s => s.studentID === v]. *)
Definition studentID_is (v : value) (s : record) : bool :=
  strict_eq (field s "studentID") v.

(** An object literal [{ k1: v1, k2: v2, ... }]. *)
Definition object (props : list (string * value)) : record :=
  list_to_map props.

(** A template literal [`... ${l}`] over an array of objects: the array is
    turned into a string, element by element.  An object is converted
    through its [toString]; when the object has a [toString] property of
    its own (data, so not callable) the conversion falls back on
    [valueOf], which returns the object, and a [TypeError] is thrown. *)
Definition interpolate (l : list record) : result unit :=
  if forallb (λ r : record, bool_decide (r !! "toString" = None)) l
  then Ok tt else Throw TypeError.

(** [l.splice(i, 1)] *)
Definition splice1 (i : nat) (l : list record) : list record := delete i l.

(** [l.push(r)] *)
Definition push (r : record) (l : list record) : list record := l ++ [r].

End JS.

(** ** The file system and JSON, as [fs.promises] and [JSON] expose them *)

Module Fs.
Import JS.

(** The text of a file, by what [JSON.parse] makes of it: the encoding of
    an array of records, or something that does not parse. *)
Inductive content : Type :=
  | Json (d : list record)
  | Unparsable (text : string).

(** The calls a program makes to [fs.promises], in order. *)
Inductive fs_call : Type :=
  | ReadFile (path : string)
  | Mkdir (dir : string)
  | WriteFile (path : string) (c : content)
  | Rename (src dst : string).

(** A disk: its files, the errors the environment injects into the next
    calls (a full disk, a missing permission), and the log of the calls
    made so far. *)
Record disk : Type := {
  files : gmap string content;
  read_fault : option error;
  mkdir_fault : option error;
  write_fault : option error;
  calls : list fs_call
}.

Definition logged (c : fs_call) (d : disk) : disk :=
  {| files := files d; read_fault := read_fault d;
     mkdir_fault := mkdir_fault d; write_fault := write_fault d;
     calls := calls d ++ [c] |}.

Definition with_file (p : string) (c : content) (d : disk) : disk :=
  {| files := <[p := c]> (files d); read_fault := read_fault d;
     mkdir_fault := mkdir_fault d; write_fault := write_fault d;
     calls := calls d |}.

(** [fs.readFile(path, 'utf8')] *)
Definition readFile (p : string) (d : disk) : result content * disk :=
  let d := logged (ReadFile p) d in
  match read_fault d with
  | Some e => (Throw e, d)
  | None =>
      match files d !! p with
      | Some c => (Ok c, d)
      | None => (Throw (SysError "ENOENT"), d)
      end
  end.

(** [fs.mkdir(dir, { recursive: true })] *)
Definition mkdir (dir : string) (d : disk) : result unit * disk :=
  let d := logged (Mkdir dir) d in
  match mkdir_fault d with
  | Some e => (Throw e, d)
  | None => (Ok tt, d)
  end.

(** [fs.writeFile(path, text)]: the target is opened, created if need be
    and emptied, and then written.  A write that fails (a full disk)
    therefore leaves the target there and empty, which does not parse. *)
Definition writeFile (p : string) (c : content) (d : disk)
  : result unit * disk :=
  let d := logged (WriteFile p c) d in
  match write_fault d with
  | Some e => (Throw e, with_file p (Unparsable "") d)
  | None => (Ok tt, with_file p c d)
  end.

(** What [JSON.stringify] keeps of a property: [undefined] is dropped and
    [NaN] is written as [null]. *)
Definition to_json (v : value) : option value :=
  match v with
  | VUndefined => None
  | VNaN => Some VNull
  | _ => Some v
  end.

(** [JSON.stringify(data, null, 2)] *)
Definition JSON_stringify (data : list record) : content :=
  Json (map (λ r : record, omap to_json r) data).

(** [JSON.parse(text)] *)
Definition JSON_parse (c : content) : result (list record) :=
  match c with
  | Json d => Ok d
  | Unparsable _ => Throw SyntaxError
  end.

(** [path.dirname] on a POSIX path without trailing slash. *)
Fixpoint before_last_slash (s : string) : option string :=
  match s with
  | EmptyString => None
  | String a s' =>
      match before_last_slash s' with
      | Some d => Some (String a d)
      | None => if Ascii.eqb a "/" then Some EmptyString else None
      end
  end.

Definition dirname (s : string) : string :=
  match before_last_slash s with
  | None => "."
  | Some EmptyString => "/"
  | Some d => d
  end.

End Fs.

(** ** What a handler sends back *)

Module Http.
Import JS.

Inductive answer : Type :=
  | Message (m : string)         (* [res.json({ message: m })] *)
  | Item (r : record)            (* [res.json(r)] *)
  | Items (l : list record)      (* [res.json(l)] *)
  | NoContent.                   (* [res.send()] *)

Record response : Type := { status : Z; payload : answer }.

(** State and exceptions: a computation runs on the globals, returns a
    value or throws, and leaves the globals as they are at that point. *)
Definition M (S A : Type) : Type := S → result A * S.

#[global] Instance M_ret {S} : MRet (M S) := λ A a st, (Ok a, st).

#[global] Instance M_bind {S} : MBind (M S) := λ A B f m st,
  match m st with
  | (Ok a, st') => f a st'
  | (Throw e, st') => (Throw e, st')
  end.

Definition throw {S A} (e : error) : M S A := λ st, (Throw e, st).

(** [try { m } catch (err) { h err }] *)
Definition try_catch {S A} (m : M S A) (h : error → M S A) : M S A := λ st,
  match m st with
  | (Ok a, st') => (Ok a, st')
  | (Throw e, st') => h e st'
  end.

Definition lift {S A} (r : result A) : M S A := λ st, (r, st).

(** [res.status(code).json(...)]; the handler returns after it. *)
Definition reply {S} (code : Z) (b : answer) : M S response :=
  mret {| status := code; payload := b |}.

End Http.

(** ** The file-backed server *)

Module Persistent.
Import JS Fs Http.

(** The globals of the process: the two arrays [products] and [students],
    and the disk. *)
Record state : Type := {
  products : list record;
  students : list record;
  dsk : disk
}.

Definition get_products : M state (list record) := λ st, (Ok (products st), st).
Definition get_students : M state (list record) := λ st, (Ok (students st), st).

Definition set_products (ps : list record) : M state unit := λ st,
  (Ok tt, {| products := ps; students := students st; dsk := dsk st |}).

Definition set_students (ss : list record) : M state unit := λ st,
  (Ok tt, {| products := products st; students := ss; dsk := dsk st |}).

Definition with_dsk (d : disk) (st : state) : state :=
  {| products := products st; students := students st; dsk := d |}.

(** An [await]ed call to [fs.promises]. *)
Definition on_disk {A} (f : disk → result A * disk) : M state A := λ st,
  let '(r, d) := f (dsk st) in (r, with_dsk d st).

Section Server.

(** [path.resolve('./data/products.json')] and
    [path.resolve('./data/students.json')]: two absolute paths fixed when
    the module is loaded. *)
Variable PRODUCTS_FILE : string.
Variable STUDENTS_FILE : string.

(** [writeData(filePath, data)]: the [catch] logs and rethrows. *)
Definition writeData (filePath : string) (data : list record) : M state bool :=
  try_catch
    (on_disk (mkdir (dirname filePath)) ;;
     on_disk (writeFile filePath (JSON_stringify data)) ;;
     mret true)
    (λ err, throw err).

(** [readData(filePath, defaultData)]: the log line inside the [try]
    interpolates the parsed array, and what that throws is caught with the
    rest. *)
Definition readData (filePath : string) (defaultData : list record)
  : M state (list record) :=
  try_catch
    (fileData ← on_disk (readFile filePath);
     parsed ← lift (JSON_parse fileData);
     (* console.log(`Read data from ...: ${parsed}`) *)
     lift (interpolate parsed) ;;
     mret parsed)
    (λ err,
       if strict_eq (code err) (VStr "ENOENT") then
         writeData filePath defaultData ;;
         mret defaultData
       else throw err).

(** [initializeData()]: the [catch] logs and goes on with the data in
    memory. *)
Definition initializeData : M state unit :=
  try_catch
    (defaults ← get_products;
     loaded ← readData PRODUCTS_FILE defaults;
     set_products loaded ;;
     defaults ← get_students;
     loaded ← readData STUDENTS_FILE defaults;
     set_students loaded)
    (λ err, mret tt).

(** [initializeData().then(... app.listen ...).catch(... process.exit(1))] *)
Inductive server : Type :=
  | Listening
  | Exited (code : Z).

Definition startup (st : state) : server * state :=
  match initializeData st with
  | (Ok _, st') => (Listening, st')
  | (Throw _, st') => (Exited 1, st')
  end.

(** The callback of the two list routes: [p => p[key] &&
    p[key].toLowerCase() === wanted.toLowerCase()]. *)
Definition matches (key : string) (wanted : value) (p : record) : result bool :=
  if truthy (field p key) then
    match toLowerCase (field p key) with
    | Throw e => Throw e
    | Ok mine =>
        match toLowerCase wanted with
        | Throw e => Throw e
        | Ok theirs => Ok (strict_eq mine theirs)
        end
    end
  else Ok false.

(** [GET /api/products], [category] being [req.query.category]. *)
Definition get_products_route (category : value) : M state response :=
  ps ← get_products;
  if truthy category then
    filteredProducts ← lift (filter (matches "category" category) ps);
    reply 200 (Items filteredProducts)
  else reply 200 (Items ps).

(** [GET /api/products/:id] *)
Definition get_product (id : string) : M state response :=
  ps ← get_products;
  match find (id_is id) ps with
  | None => reply 404 (Message "Product not found")
  | Some product => reply 200 (Item product)
  end.

(** [POST /api/products] *)
Definition post_products (body : record) : M state response :=
  let name := field body "name" in
  let price := field body "price" in
  let description := field body "description" in
  let category := field body "category" in
  if negb (truthy name) || negb (truthy price) || negb (truthy description) then
    reply 400 (Message "Name, price, and description are required")
  else
    ps ← get_products;
    let newProduct := object [
      ("id", VNum (Z.of_nat (length ps) + 1));
      ("name", name);
      ("price", price);
      ("description", description);
      ("category", js_or category (VStr "Uncategorized")) ] in
    set_products (push newProduct ps) ;;
    ps ← get_products;
    writeData PRODUCTS_FILE ps ;;
    reply 201 (Item newProduct).

(** [PUT /api/products/:id]: the four assignments change the object
    stored in the array. *)
Definition put_products (id : string) (body : record) : M state response :=
  ps ← get_products;
  match find_ref (id_is id) ps with
  | None => reply 404 (Message "Product not found")
  | Some (i, product) =>
      let name := field body "name" in
      let price := field body "price" in
      let description := field body "description" in
      let category := field body "category" in
      if negb (truthy name) || negb (truthy price) || negb (truthy description) then
        reply 400 (Message "Name, price, and description are required")
      else
        let product := <["name" := name]> product in
        let product := <["price" := price]> product in
        let product := <["description" := description]> product in
        let product :=
          <["category" := js_or category
                            (js_or (field product "category")
                                   (VStr "Uncategorized"))]> product in
        set_products (<[i := product]> ps) ;;
        ps ← get_products;
        writeData PRODUCTS_FILE ps ;;
        reply 200 (Item product)
  end.

(** [DELETE /api/products/:id] *)
Definition delete_products (id : string) : M state response :=
  ps ← get_products;
  match findIndex (id_is id) ps with
  | None => reply 404 (Message "Product not found")
  | Some index =>
      set_products (splice1 index ps) ;;
      ps ← get_products;
      writeData PRODUCTS_FILE ps ;;
      reply 204 NoContent
  end.

(** [GET /api/students], [grade] being [req.query.grade]. *)
Definition get_students_route (grade : value) : M state response :=
  ss ← get_students;
  if truthy grade then
    filteredStudents ← lift (filter (matches "grade" grade) ss);
    reply 200 (Items filteredStudents)
  else reply 200 (Items ss).

(** [GET /api/students/:id]: the route parameter is compared with
    [studentID]. *)
Definition get_student (id : string) : M state response :=
  ss ← get_students;
  match find (studentID_is (VStr id)) ss with
  | None => reply 404 (Message "Student not found")
  | Some student => reply 200 (Item student)
  end.

(** [POST /api/students] *)
Definition post_students (body : record) : M state response :=
  let name := field body "name" in
  let grade := field body "grade" in
  let studentID := field body "studentID" in
  if negb (truthy name) || negb (truthy grade) || negb (truthy studentID) then
    reply 400 (Message "Name, grade, and studentID are required")
  else
    ss ← get_students;
    match find (studentID_is studentID) ss with
    | Some _ => reply 400 (Message "StudentID must be unique")
    | None =>
        let newStudent := object [
          ("id", VNum (Z.of_nat (length ss) + 1));
          ("name", name);
          ("grade", grade);
          ("studentID", studentID) ] in
        set_students (push newStudent ss) ;;
        ss ← get_students;
        writeData STUDENTS_FILE ss ;;
        reply 201 (Item newStudent)
    end.

End Server.

End Persistent.

(** ** The in-memory server ([module_two/ecommerce-api/index.js]) *)

Module InMemory.
Import JS Http.

(** The globals: the two arrays the data modules export. *)
Record store : Type := {
  products : list record;
  students : list record
}.

Definition get_products : M store (list record) := λ st, (Ok (products st), st).
Definition get_students : M store (list record) := λ st, (Ok (students st), st).

Definition set_products (ps : list record) : M store unit := λ st,
  (Ok tt, {| products := ps; students := students st |}).

Definition set_students (ss : list record) : M store unit := λ st,
  (Ok tt, {| products := products st; students := ss |}).

(** The callback of the two list routes, here without a guard:
    [p => p[key].toLowerCase() === wanted.toLowerCase()]. *)
Definition matches (key : string) (wanted : value) (p : record) : result bool :=
  match toLowerCase (field p key) with
  | Throw e => Throw e
  | Ok mine =>
      match toLowerCase wanted with
      | Throw e => Throw e
      | Ok theirs => Ok (strict_eq mine theirs)
      end
  end.

(** [GET /api/products] *)
Definition get_products_route (category : value) : M store response :=
  ps ← get_products;
  if truthy category then
    filteredProducts ← lift (filter (matches "category" category) ps);
    reply 200 (Items filteredProducts)
  else reply 200 (Items ps).

(** [GET /api/products/:id] *)
Definition get_product (id : string) : M store response :=
  ps ← get_products;
  match find (id_is id) ps with
  | None => reply 404 (Message "Product not found")
  | Some product => reply 200 (Item product)
  end.

(** [POST /api/products] *)
Definition post_products (body : record) : M store response :=
  let name := field body "name" in
  let price := field body "price" in
  let description := field body "description" in
  if negb (truthy name) || negb (truthy price) || negb (truthy description) then
    reply 400 (Message "Name, price, and description are required")
  else
    ps ← get_products;
    let newProduct := object [
      ("id", VNum (Z.of_nat (length ps) + 1));
      ("name", name);
      ("price", price);
      ("description", description) ] in
    set_products (push newProduct ps) ;;
    reply 201 (Item newProduct).

(** [PUT /api/products/:id] *)
Definition put_products (id : string) (body : record) : M store response :=
  ps ← get_products;
  match find_ref (id_is id) ps with
  | None => reply 404 (Message "Product not found")
  | Some (i, product) =>
      let name := field body "name" in
      let price := field body "price" in
      let description := field body "description" in
      if negb (truthy name) || negb (truthy price) || negb (truthy description) then
        reply 400 (Message "Name, price, and description are required")
      else
        let product := <["name" := name]> product in
        let product := <["price" := price]> product in
        let product := <["description" := description]> product in
        set_products (<[i := product]> ps) ;;
        reply 200 (Item product)
  end.

(** [DELETE /api/products/:id] *)
Definition delete_products (id : string) : M store response :=
  ps ← get_products;
  match findIndex (id_is id) ps with
  | None => reply 404 (Message "Product not found")
  | Some index =>
      set_products (splice1 index ps) ;;
      reply 204 NoContent
  end.

(** [GET /api/students] *)
Definition get_students_route (grade : value) : M store response :=
  ss ← get_students;
  if truthy grade then
    filteredStudents ← lift (filter (matches "grade" grade) ss);
    reply 200 (Items filteredStudents)
  else reply 200 (Items ss).

(** [GET /api/students/:id], by [studentID]. *)
Definition get_student (id : string) : M store response :=
  ss ← get_students;
  match find (studentID_is (VStr id)) ss with
  | None => reply 404 (Message "Student not found")
  | Some student => reply 200 (Item student)
  end.

(** [POST /api/students] *)
Definition post_students (body : record) : M store response :=
  let name := field body "name" in
  let grade := field body "grade" in
  let studentID := field body "studentID" in
  if negb (truthy name) || negb (truthy grade) || negb (truthy studentID) then
    reply 400 (Message "Name, grade, and studentID are required")
  else
    ss ← get_students;
    match find (studentID_is studentID) ss with
    | Some _ => reply 400 (Message "StudentID must be unique")
    | None =>
        let newStudent := object [
          ("id", VNum (Z.of_nat (length ss) + 1));
          ("name", name);
          ("grade", grade);
          ("studentID", studentID) ] in
        set_students (push newStudent ss) ;;
        reply 201 (Item newStudent)
    end.

End InMemory.

(** ** The store as the specification speaks of it *)

Module Spec.
Import JS Fs Http.

(** The [id] of every record, in collection order. *)
Definition ids (ps : list record) : list value :=
  map (λ p, field p "id") ps.

(** No numeric [id] exceeds the number of records, as in a collection
    numbered [1 .. n]. *)
Definition ids_within_length (ps : list record) : bool :=
  forallb (λ v, match v with
                | VNum z => (z <=? Z.of_nat (length ps))%Z
                | _ => true
                end) (ids ps).

(** The largest numeric [id] of a collection, if it has one. *)
Definition max_id (ps : list record) : option Z :=
  foldr (λ p acc,
           match field p "id", acc with
           | VNum z, Some m => Some (Z.max z m)
           | VNum z, None => Some z
           | _, _ => acc
           end) None ps.

(** The id the specification gives a new record: the current maximum plus
    one, or [1] in an empty collection. *)
Definition spec_next_id (ps : list record) : Z :=
  match max_id ps with
  | Some m => (m + 1)%Z
  | None => 1%Z
  end.

(** A required field as the specification wants it: present ([undefined]
    and [null] are absent) and not the empty string. *)
Definition present_nonempty (v : value) : bool :=
  match v with
  | VUndefined | VNull => false
  | VStr EmptyString => false
  | _ => true
  end.

(** The save procedure of the specification, as a property of the calls
    made: the encoded collection goes to a temporary file next to the
    target, which is then renamed over the target. *)
Definition temp_then_rename (path : string) (data : list record)
    (made : list fs_call) : Prop :=
  ∃ (tmp : string) (before : list fs_call),
    tmp ≠ path ∧ dirname tmp = dirname path ∧
    made = (before ++
            [WriteFile tmp (JSON_stringify data); Rename tmp path])%list.

Definition is_rename (c : fs_call) : bool :=
  match c with Rename _ _ => true | _ => false end.

(** The mutating operations of the product store. *)
Inductive op : Type :=
  | Create (body : record)
  | Update (id : string) (body : record)
  | Delete (id : string).

Definition is_create (o : op) : bool :=
  match o with Create _ => true | _ => false end.

(** No create comes after a delete. *)
Fixpoint no_create_after_delete (ops : list op) : bool :=
  match ops with
  | [] => true
  | Delete _ :: rest => forallb (λ o, negb (is_create o)) rest
                        && no_create_after_delete rest
  | _ :: rest => no_create_after_delete rest
  end.

Section Run.
Variable PRODUCTS_FILE : string.

Definition step (o : op) : M Persistent.state response :=
  match o with
  | Create body => Persistent.post_products PRODUCTS_FILE body
  | Update id body => Persistent.put_products PRODUCTS_FILE id body
  | Delete id => Persistent.delete_products PRODUCTS_FILE id
  end.

(** The globals after the requests [ops], handled one after the other;
    a handler that throws leaves the globals as they are at the throw. *)
Fixpoint run (ops : list op) (st : Persistent.state) : Persistent.state :=
  match ops with
  | [] => st
  | o :: rest => run rest (snd (step o st))
  end.

End Run.

End Spec.

(** ** The route table *)

Module Requests.
Import JS Fs Http.

(** A request the file-backed server has a route for: the method and path
    pick the handler, the rest is what the handler reads of the request
    ([req.query], [req.params.id], [req.body]). *)
Inductive request : Type :=
  | GetProducts (category : value)
  | GetProduct (id : string)
  | PostProducts (body : record)
  | PutProducts (id : string) (body : record)
  | DeleteProducts (id : string)
  | GetStudents (grade : value)
  | GetStudent (id : string)
  | PostStudents (body : record).

(** The requests that only read. *)
Definition is_get (r : request) : bool :=
  match r with
  | GetProducts _ | GetProduct _ | GetStudents _ | GetStudent _ => true
  | _ => false
  end.

Section Table.
Variable PRODUCTS_FILE : string.
Variable STUDENTS_FILE : string.

(** The handler registered for the request. *)
Definition handle (r : request) : M Persistent.state response :=
  match r with
  | GetProducts category => Persistent.get_products_route category
  | GetProduct id => Persistent.get_product id
  | PostProducts body => Persistent.post_products PRODUCTS_FILE body
  | PutProducts id body => Persistent.put_products PRODUCTS_FILE id body
  | DeleteProducts id => Persistent.delete_products PRODUCTS_FILE id
  | GetStudents grade => Persistent.get_students_route grade
  | GetStudent id => Persistent.get_student id
  | PostStudents body => Persistent.post_students STUDENTS_FILE body
  end.

(** The globals after the requests [rs], handled one after the other. *)
Fixpoint serve (rs : list request) (st : Persistent.state)
  : Persistent.state :=
  match rs with
  | [] => st
  | r :: rest => serve rest (snd (handle r st))
  end.

End Table.

(** The [studentID] of every student, in collection order. *)
Definition studentIDs (ss : list record) : list value :=
  map (λ s, field s "studentID") ss.

(** A product with a truthy name, price, description and category. *)
Definition complete (p : record) : bool :=
  truthy (field p "name") && truthy (field p "price")
  && truthy (field p "description") && truthy (field p "category").

(** A value [JSON.parse] gives back as [JSON.stringify] took it: [null],
    a boolean, a number or a string ([undefined] is dropped, [NaN] is
    written as [null], and an object comes back as a new object). *)
Definition scalar (v : value) : bool :=
  match v with
  | VNull | VBool _ | VNum _ | VStr _ => true
  | VUndefined | VNaN | VObject _ => false
  end.

(** A record all of whose properties are such values. *)
Definition plain (r : record) : Prop :=
  map_Forall (λ _ v, scalar v = true) r.

(** A category the guarded filter callback cannot lower-case: truthy and
    not a string. *)
Definition unfilterable (v : value) : bool :=
  truthy v && match v with VStr _ => false | _ => true end.

End Requests.

(** ** Sample data *)

Module Sample.
Import JS Fs Http.

Definition PRODUCTS_FILE : string := "/srv/app/data/products.json".
Definition STUDENTS_FILE : string := "/srv/app/data/students.json".

Definition laptop : record := object [
  ("id", VNum 1); ("name", VStr "Laptop"); ("price", VNum 999);
  ("description", VStr "High-performance laptop") ].

Definition smartphone : record := object [
  ("id", VNum 2); ("name", VStr "Smartphone"); ("price", VNum 699);
  ("description", VStr "Latest smartphone model") ].

Definition ada : record := object [
  ("id", VNum 1); ("name", VStr "Ada"); ("grade", VStr "A");
  ("studentID", VStr "S1") ].

Definition gadget : record := object [
  ("id", VNum 1); ("name", VStr "Radio"); ("price", VNum 40);
  ("description", VStr "Pocket radio"); ("category", VStr "Electronics") ].

Definition novel : record := object [
  ("id", VNum 2); ("name", VStr "Novel"); ("price", VNum 12);
  ("description", VStr "Paperback"); ("category", VStr "Books") ].

(** Request bodies. *)
Definition tablet_body : record := object [
  ("name", VStr "Tablet"); ("price", VNum 299);
  ("description", VStr "Ten-inch tablet") ].

Definition free_sample_body : record := object [
  ("name", VStr "Sample"); ("price", VNum 0);
  ("description", VStr "Free sample") ].

Definition no_name_body : record := object [
  ("price", VNum 5); ("description", VStr "Anonymous") ].

Definition no_description_body : record := object [
  ("name", VStr "Bare"); ("price", VNum 5) ].

Definition bob_body (studentID : string) : record := object [
  ("name", VStr "Bob"); ("grade", VStr "B"); ("studentID", VStr studentID) ].

(** The smartphone after [PUT /api/products/2] with [tablet_body]. *)
Definition smartphone_as_tablet : record := object [
  ("id", VNum 2); ("name", VStr "Tablet"); ("price", VNum 299);
  ("description", VStr "Ten-inch tablet");
  ("category", VStr "Uncategorized") ].

(** Disks. *)
Definition empty_disk : disk :=
  {| files := ∅; read_fault := None; mkdir_fault := None;
     write_fault := None; calls := [] |}.

Definition full_disk : disk :=
  {| files := ∅; read_fault := None; mkdir_fault := None;
     write_fault := Some (SysError "ENOSPC"); calls := [] |}.

Definition corrupt_disk : disk :=
  {| files := {[ PRODUCTS_FILE := Unparsable "[{ id: 1," ]};
     read_fault := None; mkdir_fault := None;
     write_fault := None; calls := [] |}.

Definition boot (d : disk) : Persistent.state :=
  {| Persistent.products := [laptop; smartphone];
     Persistent.students := [ada];
     Persistent.dsk := d |}.

Definition shop (d : disk) : Persistent.state :=
  {| Persistent.products := [gadget; novel];
     Persistent.students := [ada];
     Persistent.dsk := d |}.

(** The record [POST /api/products] with [tablet_body] stores as the third
    product. *)
Definition tablet : record := object [
  ("id", VNum 3); ("name", VStr "Tablet"); ("price", VNum 299);
  ("description", VStr "Ten-inch tablet");
  ("category", VStr "Uncategorized") ].

(** A body whose category is a number. *)
Definition odd_body : record := object [
  ("name", VStr "Odd"); ("price", VNum 1); ("description", VStr "Odd one");
  ("category", VNum 5) ].

(** A disk holding both snapshots. *)
Definition stocked_disk : disk :=
  {| files := {[ PRODUCTS_FILE := Json [gadget; novel];
                 STUDENTS_FILE := Json [ada] ]};
     read_fault := None; mkdir_fault := None;
     write_fault := None; calls := [] |}.

(** A disk whose students snapshot does not parse. *)
Definition half_corrupt_disk : disk :=
  {| files := {[ PRODUCTS_FILE := Json [gadget; novel];
                 STUDENTS_FILE := Unparsable "[{" ]};
     read_fault := None; mkdir_fault := None;
     write_fault := None; calls := [] |}.

(** A disk that cannot be read. *)
Definition locked_disk : disk :=
  {| files := ∅; read_fault := Some (SysError "EACCES"); mkdir_fault := None;
     write_fault := None; calls := [] |}.

Definition catalogue : InMemory.store :=
  {| InMemory.products := [laptop; smartphone];
     InMemory.students := [ada] |}.

End Sample.

(** * Properties *)

Module Props.
Import JS Fs Http Spec.

(** ** Arrays *)

Section Arrays.
Implicit Types (f : record → bool) (l : list record).

Lemma find_ref_Some f l i r :
  find_ref f l = Some (i, r) →
  l !! i = Some r ∧ f r = true ∧
  ∀ j r', (j < i)%nat → l !! j = Some r' → f r' = false.
Proof.
  revert i. induction l as [|x l IH]; intros i; simpl; [discriminate|].
  destruct (f x) eqn:Hx.
  - intros [= <- <-]. repeat split; auto. intros j r' Hj. lia.
  - destruct (find_ref f l) as [[k y]|] eqn:Hl; simpl; [|discriminate].
    intros [= <- <-]. destruct (IH k eq_refl) as (H1 & H2 & H3).
    repeat split; auto. intros [|j] r' Hj; simpl.
    + intros [= <-]. exact Hx.
    + apply H3. lia.
Qed.

Lemma find_ref_None f l :
  find_ref f l = None ↔ ∀ r, r ∈ l → f r = false.
Proof.
  induction l as [|x l IH]; simpl.
  - split; [|done]. intros _ r Hr. inversion Hr.
  - destruct (f x) eqn:Hx.
    + split; [discriminate|]. intros H.
      rewrite (H x) in Hx; [discriminate|left].
    + destruct (find_ref f l) as [[k y]|]; simpl.
      * split; [discriminate|]. intros H.
        assert (Some (k, y) = None) as Hk; [|discriminate Hk].
        apply IH. intros r Hr. apply H. by right.
      * split; [|done]. intros _ r Hr.
        apply elem_of_cons in Hr as [->|Hr]; [done|]. by apply IH.
Qed.

Lemma find_Some f l r :
  find f l = Some r → r ∈ l ∧ f r = true.
Proof.
  unfold find. destruct (find_ref f l) as [[i x]|] eqn:H; simpl; [|discriminate].
  intros [= <-]. apply find_ref_Some in H as (H1 & H2 & _).
  split; [by eapply list_elem_of_lookup_2|done].
Qed.

Lemma find_None f l :
  find f l = None ↔ ∀ r, r ∈ l → f r = false.
Proof.
  unfold find. rewrite <- find_ref_None.
  destruct (find_ref f l) as [[i x]|]; simpl; split; done.
Qed.

Lemma ids_push l r : ids (push r l) = (ids l ++ [field r "id"])%list.
Proof. unfold ids, push. by rewrite map_app. Qed.

Lemma ids_splice1 i l : ids (splice1 i l) = delete i (ids l).
Proof.
  unfold ids, splice1. revert i.
  induction l as [|x l IH]; intros [|i]; simpl; auto. by rewrite IH.
Qed.

Lemma ids_insert i l old new :
  l !! i = Some old → field new "id" = field old "id" →
  ids (<[i := new]> l) = ids l.
Proof.
  unfold ids. revert i. induction l as [|x l IH]; intros [|i]; simpl; try done.
  - intros [= ->] ->. done.
  - intros H1 H2. by rewrite IH.
Qed.

End Arrays.

(** ** Persistence touches the disk only *)

Lemma writeData_mem f data st :
  ∃ r d, Persistent.writeData f data st = (r, Persistent.with_dsk d st).
Proof.
  unfold Persistent.writeData, try_catch, mbind, M_bind, Persistent.on_disk,
    mkdir, writeFile, throw, mret, M_ret.
  destruct st as [ps ss [fs rf [e1|] [e2|] cs]]; simpl; eauto.
Qed.

Lemma writeData_run f data st :
  Persistent.writeData f data st =
    let d1 := logged (Mkdir (dirname f)) (Persistent.dsk st) in
    match mkdir_fault (Persistent.dsk st) with
    | Some e => (Throw e, Persistent.with_dsk d1 st)
    | None =>
        let d2 := logged (WriteFile f (JSON_stringify data)) d1 in
        match write_fault (Persistent.dsk st) with
        | Some e =>
            (Throw e, Persistent.with_dsk (with_file f (Unparsable "") d2) st)
        | None =>
            (Ok true,
             Persistent.with_dsk (with_file f (JSON_stringify data) d2) st)
        end
    end.
Proof.
  unfold Persistent.writeData, try_catch, mbind, M_bind, Persistent.on_disk,
    mkdir, writeFile, throw, mret, M_ret.
  destruct st as [ps ss [fs rf [e1|] [e2|] cs]]; reflexivity.
Qed.

(** Unfold a route down to its call of [writeData]. *)
Ltac route :=
  unfold Persistent.post_products, Persistent.put_products,
    Persistent.delete_products, Persistent.post_students,
    Persistent.get_product, Persistent.get_student,
    InMemory.post_products, InMemory.put_products,
    InMemory.delete_products, InMemory.post_students,
    InMemory.get_product, InMemory.get_student;
  unfold mbind, M_bind, reply, mret, M_ret,
    Persistent.get_products, Persistent.set_products,
    Persistent.get_students, Persistent.set_students,
    InMemory.get_products, InMemory.set_products,
    InMemory.get_students, InMemory.set_students.

(** Name the outcome of the [writeData] in the goal. *)
Ltac persist res d :=
  match goal with
  | |- context [Persistent.writeData ?f ?data ?s] =>
      destruct (writeData_mem f data s) as (res & d & ->)
  end.

(** ** What the product routes do to the arrays *)

Section Store.
Context (pf : string).

(** [PUT] assigns [name], [price], [description] and [category] only. *)
Lemma put_fields_keep (old : record) n p d c k :
  k ≠ "name" → k ≠ "price" → k ≠ "description" → k ≠ "category" →
  (<["category" := c]> (<["description" := d]> (<["price" := p]>
     (<["name" := n]> old)))) !! k = old !! k.
Proof. intros. by rewrite !lookup_insert_ne. Qed.

Lemma post_products_mem body st :
  let st' := snd (Persistent.post_products pf body st) in
  Persistent.students st' = Persistent.students st ∧
  (Persistent.products st' = Persistent.products st ∨
   ∃ r, Persistent.products st' = push r (Persistent.products st) ∧
        field r "id" = VNum (Z.of_nat (length (Persistent.products st)) + 1)).
Proof.
  route. destruct (_ || _); simpl; [by auto|].
  persist res d.
  destruct res; simpl; (split; [done|]); right; eexists; split; reflexivity.
Qed.

Lemma put_products_mem id body st :
  let st' := snd (Persistent.put_products pf id body st) in
  Persistent.students st' = Persistent.students st ∧
  (Persistent.products st' = Persistent.products st ∨
   ∃ i old new, Persistent.products st !! i = Some old ∧
        Persistent.products st' = <[i := new]> (Persistent.products st) ∧
        field new "id" = field old "id").
Proof.
  route. destruct (find_ref _ _) as [[i old]|] eqn:Hf; simpl; [|by auto].
  destruct (_ || _); simpl; [by auto|].
  apply find_ref_Some in Hf as (Hi & _ & _).
  persist res d. destruct res; simpl; (split; [done|]); right;
    eexists i, old, _; (split; [done|]); (split; [reflexivity|]);
    unfold field; by rewrite put_fields_keep.
Qed.

Lemma delete_products_mem id st :
  let st' := snd (Persistent.delete_products pf id st) in
  Persistent.students st' = Persistent.students st ∧
  (Persistent.products st' = Persistent.products st ∨
   ∃ i, Persistent.products st' = splice1 i (Persistent.products st)).
Proof.
  route. destruct (findIndex _ _) as [i|]; simpl; [|by auto].
  persist res d. destruct res; simpl; (split; [done|]); right; by exists i.
Qed.

End Store.

(** ** C1: distinct ids *)

Section Distinct.
Context (pf : string).

Lemma within_length_spec (ps : list record) :
  ids_within_length ps = true ↔
  ∀ z, VNum z ∈ ids ps → (z ≤ Z.of_nat (length ps))%Z.
Proof.
  unfold ids_within_length. rewrite forallb_forall. split.
  - intros H z Hz. apply list_elem_of_In in Hz. apply H in Hz. lia.
  - intros H v Hv. destruct v; try done. apply list_elem_of_In in Hv.
    apply H in Hv. lia.
Qed.

(** Appending a record numbered [length + 1] to a collection numbered
    within its length keeps it so, and keeps the ids distinct. *)
Lemma push_numbered (ps : list record) r :
  field r "id" = VNum (Z.of_nat (length ps) + 1) →
  NoDup (ids ps) → ids_within_length ps = true →
  NoDup (ids (push r ps)) ∧ ids_within_length (push r ps) = true.
Proof.
  intros Hr Hnd Hin. rewrite within_length_spec in Hin. split.
  - rewrite ids_push, Hr. apply NoDup_app.
    split; [done|]. split; [|apply NoDup_singleton].
    intros x Hx Hx'. apply list_elem_of_singleton in Hx' as ->.
    apply Hin in Hx. lia.
  - apply within_length_spec. intros z. rewrite ids_push, Hr.
    unfold push. rewrite length_app. simpl.
    intros Hz. apply elem_of_app in Hz as [Hz|Hz].
    + apply Hin in Hz. lia.
    + apply list_elem_of_singleton in Hz. injection Hz as ->. lia.
Qed.

Lemma step_numbered o st :
  (∀ id, o ≠ Delete id) →
  NoDup (ids (Persistent.products st)) →
  ids_within_length (Persistent.products st) = true →
  NoDup (ids (Persistent.products (snd (step pf o st)))) ∧
  ids_within_length (Persistent.products (snd (step pf o st))) = true.
Proof.
  intros Ho Hnd Hin. destruct o as [body|id body|id]; simpl.
  - destruct (post_products_mem pf body st) as [_ [->|(r & -> & Hr)]]; [done|].
    by apply push_numbered.
  - destruct (put_products_mem pf id body st)
      as [_ [->|(i & old & new & Hi & -> & Hid)]]; [done|].
    unfold ids_within_length.
    rewrite (ids_insert _ _ _ _ Hi Hid), length_insert. done.
  - by destruct (Ho id).
Qed.

Lemma step_distinct o st :
  is_create o = false →
  NoDup (ids (Persistent.products st)) →
  NoDup (ids (Persistent.products (snd (step pf o st)))).
Proof.
  intros Ho Hnd. destruct o as [body|id body|id]; simpl; [done| |].
  - destruct (put_products_mem pf id body st)
      as [_ [->|(i & old & new & Hi & -> & Hid)]]; [done|].
    by rewrite (ids_insert _ _ _ _ Hi Hid).
  - destruct (delete_products_mem pf id st) as [_ [->|(i & ->)]]; [done|].
    rewrite ids_splice1. eapply sublist_NoDup; [exact Hnd|].
    apply sublist_delete.
Qed.

Lemma run_distinct ops st :
  forallb (λ o, negb (is_create o)) ops = true →
  NoDup (ids (Persistent.products st)) →
  NoDup (ids (Persistent.products (run pf ops st))).
Proof.
  revert st. induction ops as [|o ops IH]; intros st; simpl; [done|].
  intros [Ho Hops]%andb_true_iff Hnd. apply IH; [done|].
  apply step_distinct; [|done]. by destruct (is_create o).
Qed.

Lemma run_numbered ops st :
  no_create_after_delete ops = true →
  NoDup (ids (Persistent.products st)) →
  ids_within_length (Persistent.products st) = true →
  NoDup (ids (Persistent.products (run pf ops st))).
Proof.
  revert st. induction ops as [|o ops IH]; intros st; simpl; [done|].
  intros Hops Hnd Hin.
  destruct o as [body|id body|id].
  - destruct (step_numbered (Create body) st) as [H1 H2]; auto; done.
  - destruct (step_numbered (Update id body) st) as [H1 H2]; auto; done.
  - apply andb_true_iff in Hops as [Hops _].
    apply run_distinct; [done|]. by apply (step_distinct (Delete id)).
Qed.

Lemma forallb_take {A} (f : A → bool) (l : list A) n :
  forallb f l = true → forallb f (take n l) = true.
Proof.
  revert n. induction l as [|x l IH]; intros [|n]; simpl; try done.
  intros [-> H]%andb_true_iff. simpl. by apply IH.
Qed.

Lemma no_create_after_delete_take ops n :
  no_create_after_delete ops = true →
  no_create_after_delete (take n ops) = true.
Proof.
  revert n. induction ops as [|o ops IH]; intros [|n]; simpl; try done.
  destruct o; auto.
  intros [H1 H2]%andb_true_iff. apply andb_true_iff. split; [|by apply IH].
  by apply forallb_take.
Qed.

(** C1, as the code has it: take a sequence of creates, updates and
    deletes of products in which no create comes after a delete, and start
    it on a collection whose ids are pairwise distinct and, when numeric,
    at most the number of records.  Then after every prefix of the
    sequence (whatever each request answered, and whether or not its write
    to disk succeeded) the ids in memory are pairwise distinct. *)
Theorem ids_distinct_unless_create_follows_delete ops st n :
  no_create_after_delete ops = true →
  NoDup (ids (Persistent.products st)) →
  ids_within_length (Persistent.products st) = true →
  NoDup (ids (Persistent.products (run pf (take n ops) st))).
Proof.
  intros Hops. apply run_numbered. by apply no_create_after_delete_take.
Qed.

End Distinct.

Lemma ids_distinct_witness :
  NoDup (ids (Persistent.products
    (run Sample.PRODUCTS_FILE
       (take 3 [Create Sample.tablet_body; Delete "1";
                Update "2" Sample.tablet_body])
       (Sample.boot Sample.empty_disk)))).
Proof.
  apply ids_distinct_unless_create_follows_delete.
  - reflexivity.
  - apply (bool_decide_unpack _). vm_compute. reflexivity.
  - reflexivity.
Defined.

(** The in-memory server numbers new products in the same way: deleting
    id 1 from ids 1 and 2 and creating a product leaves two records with
    id 2. *)
Lemma in_memory_create_after_delete_duplicates_id :
  let st1 := snd (InMemory.delete_products "1" Sample.catalogue) in
  let st2 := snd (InMemory.post_products Sample.tablet_body st1) in
  ids (InMemory.products st2) = [VNum 2; VNum 2].
Proof. vm_compute. reflexivity. Qed.

(** C1 fails as stated: the catalogue starts with ids 1 and 2; after
    [DELETE /api/products/1] one record is left, so the next create is
    numbered [1 + 1 = 2], the id of the record that is still there. *)
Lemma create_after_delete_duplicates_id :
  NoDup (ids (Persistent.products (Sample.boot Sample.empty_disk))) ∧
  ids (Persistent.products
         (run Sample.PRODUCTS_FILE [Delete "1"; Create Sample.tablet_body]
            (Sample.boot Sample.empty_disk))) = [VNum 2; VNum 2] ∧
  ¬ NoDup (ids (Persistent.products
       (run Sample.PRODUCTS_FILE [Delete "1"; Create Sample.tablet_body]
          (Sample.boot Sample.empty_disk)))).
Proof.
  split; [|split].
  - apply (bool_decide_unpack _). vm_compute. reflexivity.
  - vm_compute. reflexivity.
  - apply (bool_decide_unpack _). vm_compute. reflexivity.
Qed.

(** ** C2: the id of a new record *)

Section NewId.
Context (pf : string).

(** C2, as the code has it: a successful product create returns a record
    whose id is the number of records in the collection before the call
    plus one (so [1] in an empty collection), and that record is appended
    to the collection. *)
Theorem create_assigns_length_plus_one body st r st' :
  Persistent.post_products pf body st
    = (Ok {| status := 201; payload := Item r |}, st') →
  field r "id" = VNum (Z.of_nat (length (Persistent.products st)) + 1) ∧
  (Persistent.products st = [] → field r "id" = VNum 1) ∧
  Persistent.products st' = push r (Persistent.products st).
Proof.
  route. destruct (_ || _); [discriminate|].
  persist res d. destruct res; [|discriminate].
  intros [= <- <-]. repeat split. by intros ->.
Qed.

(** Where the largest id equals the number of records, as in a collection
    numbered [1 .. n] from which nothing was deleted, [length + 1] is the
    [max + 1] of the specification. *)
Lemma spec_next_id_of_numbered (ps : list record) :
  max_id ps = Some (Z.of_nat (length ps)) →
  spec_next_id ps = (Z.of_nat (length ps) + 1)%Z.
Proof. unfold spec_next_id. by intros ->. Qed.

End NewId.

(** The same numbering in the in-memory server. *)
Lemma in_memory_create_assigns_length_plus_one body st r st' :
  InMemory.post_products body st
    = (Ok {| status := 201; payload := Item r |}, st') →
  field r "id" = VNum (Z.of_nat (length (InMemory.products st)) + 1) ∧
  InMemory.products st' = push r (InMemory.products st).
Proof.
  route. destruct (_ || _); [discriminate|].
  intros [= <- <-]. by split.
Qed.

Lemma create_assigns_length_plus_one_witness :
  ∃ r st',
    Persistent.post_products Sample.PRODUCTS_FILE Sample.tablet_body
      (Sample.boot Sample.empty_disk)
      = (Ok {| status := 201; payload := Item r |}, st') ∧
    field r "id" = VNum 3.
Proof.
  eexists _, _. split; [vm_compute; reflexivity|].
  eapply (create_assigns_length_plus_one Sample.PRODUCTS_FILE
            Sample.tablet_body (Sample.boot Sample.empty_disk)).
  vm_compute. reflexivity.
Defined.

(** C2 fails as stated: with ids 1 and 2, after [DELETE /api/products/1]
    the collection holds id 2 alone, the specification's next id is
    [2 + 1 = 3], and the create that follows is numbered 2. *)
Lemma create_after_delete_is_not_max_plus_one :
  let st1 := snd (Persistent.delete_products Sample.PRODUCTS_FILE "1"
                    (Sample.boot Sample.empty_disk)) in
  ids (Persistent.products st1) = [VNum 2] ∧
  spec_next_id (Persistent.products st1) = 3%Z ∧
  ∃ r st2,
    Persistent.post_products Sample.PRODUCTS_FILE Sample.tablet_body st1
      = (Ok {| status := 201; payload := Item r |}, st2) ∧
    field r "id" = VNum 2 ∧
    field r "id" ≠ VNum (spec_next_id (Persistent.products st1)).
Proof.
  split; [vm_compute; reflexivity|].
  split; [vm_compute; reflexivity|].
  eexists _, _. split; [vm_compute; reflexivity|].
  split; [vm_compute; reflexivity|].
  vm_compute. discriminate.
Qed.

(** ** C3: a failed write *)

Section FailedWrite.
Context (pf : string).

(** What the four assignments of [PUT] leave in the object. *)
Lemma put_fields_set (old : record) n p d c :
  ∀ new, new = <["category" := c]> (<["description" := d]> (<["price" := p]>
                 (<["name" := n]> old))) →
  field new "name" = n ∧ field new "price" = p ∧
  field new "description" = d ∧ field new "category" = c.
Proof. intros new ->. unfold field. by simplify_map_eq. Qed.

Lemma writeData_Throw f data st e st' :
  Persistent.writeData f data st = (Throw e, st') →
  (mkdir_fault (Persistent.dsk st) = Some e ∨
   mkdir_fault (Persistent.dsk st) = None ∧
   write_fault (Persistent.dsk st) = Some e) ∧
  Persistent.products st' = Persistent.products st ∧
  Persistent.students st' = Persistent.students st.
Proof.
  rewrite writeData_run.
  destruct (mkdir_fault _) as [e1|] eqn:H1; simpl.
  - intros [= <- <-]. auto.
  - destruct (write_fault _) as [e2|] eqn:H2; simpl; [|discriminate].
    intros [= <- <-]. auto.
Qed.

(** A [mkdir] or a [writeFile] that fails makes [writeData] throw that
    error, with the arrays as they were handed to it. *)
Lemma writeData_fails f data st e :
  mkdir_fault (Persistent.dsk st) = Some e ∨
  mkdir_fault (Persistent.dsk st) = None ∧
  write_fault (Persistent.dsk st) = Some e →
  ∃ d, Persistent.writeData f data st = (Throw e, Persistent.with_dsk d st).
Proof.
  rewrite writeData_run. intros [Hm|[Hm Hw]].
  - rewrite Hm. eauto.
  - rewrite Hm, Hw. simpl. eauto.
Qed.

(** The only step of a product create, update or delete that can throw is
    the write to disk: a handler that rejects does so with the error of
    the failed [mkdir] or [writeFile], after it has changed the array. *)
Lemma only_the_write_throws o st e st' :
  step pf o st = (Throw e, st') →
  (mkdir_fault (Persistent.dsk st) = Some e ∨
   mkdir_fault (Persistent.dsk st) = None ∧
   write_fault (Persistent.dsk st) = Some e) ∧
  Persistent.students st' = Persistent.students st ∧
  match o with
  | Create body =>
      ∃ r, Persistent.products st' = push r (Persistent.products st) ∧
           field r "name" = field body "name"
  | Update id body =>
      ∃ i old new,
        find_ref (id_is id) (Persistent.products st) = Some (i, old) ∧
        Persistent.products st' = <[i := new]> (Persistent.products st) ∧
        field new "name" = field body "name" ∧
        field new "price" = field body "price" ∧
        field new "description" = field body "description"
  | Delete id =>
      ∃ i, findIndex (id_is id) (Persistent.products st) = Some i ∧
           Persistent.products st' = splice1 i (Persistent.products st)
  end.
Proof.
  destruct o as [body|id body|id]; simpl; route.
  - destruct (_ || _); [discriminate|].
    destruct (Persistent.writeData _ _ _) as [[b|e'] st1] eqn:Hw; [discriminate|].
    intros [= <- <-]. apply writeData_Throw in Hw as (Hf & Hp & Hs).
    simpl in *. repeat split; [done..|]. eexists. split; [exact Hp|]. reflexivity.
  - destruct (find_ref _ _) as [[i old]|] eqn:Hfind; [|discriminate].
    destruct (_ || _); [discriminate|].
    destruct (Persistent.writeData _ _ _) as [[b|e'] st1] eqn:Hw; [discriminate|].
    intros [= <- <-]. apply writeData_Throw in Hw as (Hf & Hp & Hs).
    simpl in *. repeat split; [done..|].
    eexists i, old, _. split; [done|]. split; [exact Hp|].
    repeat split; eapply put_fields_set; reflexivity.
  - destruct (findIndex _ _) as [i|] eqn:Hfind; [|discriminate].
    destruct (Persistent.writeData _ _ _) as [[b|e'] st1] eqn:Hw; [discriminate|].
    intros [= <- <-]. apply writeData_Throw in Hw as (Hf & Hp & Hs).
    simpl in *. repeat split; [done..|]. by exists i.
Qed.

(** C3, as the code has it: the handlers change the array and then await
    [writeData], with no [catch] around it and nothing that undoes the
    change.  So when the [mkdir] or the [writeFile] of the persistence
    step fails with [e], every product create that passed validation,
    every update of a product that exists with a complete body, and every
    delete of a product that exists rejects with [e] (no response is
    sent), and the arrays stay as the handler had changed them: the new
    record is still appended, the matched record carries the new name,
    price and description, the deleted record is gone; the students are
    as they were. *)
Theorem failed_write_keeps_mutation st e :
  mkdir_fault (Persistent.dsk st) = Some e ∨
  mkdir_fault (Persistent.dsk st) = None ∧
  write_fault (Persistent.dsk st) = Some e →
  (∀ body,
     truthy (field body "name") = true →
     truthy (field body "price") = true →
     truthy (field body "description") = true →
     ∃ r st',
       step pf (Create body) st = (Throw e, st') ∧
       Persistent.products st' = push r (Persistent.products st) ∧
       field r "name" = field body "name" ∧
       field r "price" = field body "price" ∧
       field r "description" = field body "description" ∧
       Persistent.students st' = Persistent.students st) ∧
  (∀ id body i old,
     find_ref (id_is id) (Persistent.products st) = Some (i, old) →
     truthy (field body "name") = true →
     truthy (field body "price") = true →
     truthy (field body "description") = true →
     ∃ new st',
       step pf (Update id body) st = (Throw e, st') ∧
       Persistent.products st' = <[i := new]> (Persistent.products st) ∧
       field new "name" = field body "name" ∧
       field new "price" = field body "price" ∧
       field new "description" = field body "description" ∧
       Persistent.students st' = Persistent.students st) ∧
  (∀ id i,
     findIndex (id_is id) (Persistent.products st) = Some i →
     ∃ st',
       step pf (Delete id) st = (Throw e, st') ∧
       Persistent.products st' = splice1 i (Persistent.products st) ∧
       Persistent.students st' = Persistent.students st).
Proof.
  intros Hfault. split; [|split].
  - intros body H1 H2 H3. simpl. route. rewrite H1, H2, H3. simpl.
    match goal with
    | |- context [Persistent.writeData ?f ?data ?s] =>
        destruct (writeData_fails f data s e Hfault) as [d ->]
    end.
    eexists _, _. split; [reflexivity|]. simpl.
    split; [reflexivity|]. unfold field, object. simpl. by simplify_map_eq.
  - intros id body i old Hfind H1 H2 H3. simpl. route.
    rewrite Hfind, H1, H2, H3. simpl.
    match goal with
    | |- context [Persistent.writeData ?f ?data ?s] =>
        destruct (writeData_fails f data s e Hfault) as [d ->]
    end.
    eexists _, _. split; [reflexivity|]. simpl.
    split; [reflexivity|].
    repeat split; eapply put_fields_set; reflexivity.
  - intros id i Hfind. simpl. route. rewrite Hfind. simpl.
    match goal with
    | |- context [Persistent.writeData ?f ?data ?s] =>
        destruct (writeData_fails f data s e Hfault) as [d ->]
    end.
    eexists. by repeat split.
Qed.

End FailedWrite.

Lemma failed_write_keeps_mutation_witness :
  let st := Sample.boot Sample.full_disk in
  (∃ r st',
     step Sample.PRODUCTS_FILE (Create Sample.tablet_body) st
       = (Throw (SysError "ENOSPC"), st') ∧
     Persistent.products st' = [Sample.laptop; Sample.smartphone; r] ∧
     field r "name" = VStr "Tablet") ∧
  (∃ new st',
     step Sample.PRODUCTS_FILE (Update "1" Sample.tablet_body) st
       = (Throw (SysError "ENOSPC"), st') ∧
     Persistent.products st' = [new; Sample.smartphone] ∧
     field new "name" = VStr "Tablet") ∧
  (∃ st',
     step Sample.PRODUCTS_FILE (Delete "1") st
       = (Throw (SysError "ENOSPC"), st') ∧
     Persistent.products st' = [Sample.smartphone]).
Proof.
  intros st.
  destruct (failed_write_keeps_mutation Sample.PRODUCTS_FILE st
              (SysError "ENOSPC")) as (Hcreate & Hupdate & Hdelete).
  { right. split; reflexivity. }
  split; [|split].
  - destruct (Hcreate Sample.tablet_body)
      as (r & st' & Hrun & Hp & Hn & _); [vm_compute; reflexivity..|].
    exists r, st'. split; [exact Hrun|]. split; [exact Hp|exact Hn].
  - destruct (Hupdate "1" Sample.tablet_body 0%nat Sample.laptop)
      as (new & st' & Hrun & Hp & Hn & _); [vm_compute; reflexivity..|].
    exists new, st'. split; [exact Hrun|]. split; [exact Hp|exact Hn].
  - destruct (Hdelete "1" 0%nat) as (st' & Hrun & Hp & _);
      [vm_compute; reflexivity|].
    exists st'. split; [exact Hrun|exact Hp].
Defined.

(** C3 fails as stated: on a full disk the three mutations reject with
    [ENOSPC] and the array is not what it was before the call: the create
    leaves three records where there were two, the update leaves the first
    record renamed, the delete leaves one record. *)
Lemma failed_write_is_not_rolled_back :
  let st := Sample.boot Sample.full_disk in
  let created := step Sample.PRODUCTS_FILE (Create Sample.tablet_body) st in
  let updated := step Sample.PRODUCTS_FILE (Update "1" Sample.tablet_body) st in
  let deleted := step Sample.PRODUCTS_FILE (Delete "1") st in
  (fst created = Throw (SysError "ENOSPC") ∧
   length (Persistent.products (snd created)) = 3%nat ∧
   Persistent.products (snd created) ≠ Persistent.products st) ∧
  (fst updated = Throw (SysError "ENOSPC") ∧
   (λ p, field p "name") <$> Persistent.products (snd updated) !! 0%nat
     = Some (VStr "Tablet") ∧
   Persistent.products (snd updated) ≠ Persistent.products st) ∧
  (fst deleted = Throw (SysError "ENOSPC") ∧
   Persistent.products (snd deleted) = [Sample.smartphone] ∧
   Persistent.products (snd deleted) ≠ Persistent.products st).
Proof.
  repeat split; try (vm_compute; reflexivity);
    intros H;
    apply (f_equal (λ l, (length l, (λ p, field p "name") <$> l !! 0%nat))) in H;
    vm_compute in H; discriminate H.
Qed.

(** ** C4: how [writeData] saves *)

Section Save.

(** C4, as the code has it: on a disk that takes the calls, [writeData]
    makes exactly two calls, a recursive [mkdir] of the target's directory
    and one [writeFile] of the encoded collection to the target path
    itself; it returns [true] and the target then holds that encoding.
    There is no temporary file and no rename. *)
Theorem writeData_writes_target_in_place path data st :
  mkdir_fault (Persistent.dsk st) = None →
  write_fault (Persistent.dsk st) = None →
  ∃ st',
    Persistent.writeData path data st = (Ok true, st') ∧
    calls (Persistent.dsk st')
      = (calls (Persistent.dsk st) ++
         [Mkdir (dirname path); WriteFile path (JSON_stringify data)])%list ∧
    files (Persistent.dsk st')
      = <[path := JSON_stringify data]> (files (Persistent.dsk st)) ∧
    Persistent.products st' = Persistent.products st ∧
    Persistent.students st' = Persistent.students st ∧
    ¬ temp_then_rename path data
        [Mkdir (dirname path); WriteFile path (JSON_stringify data)].
Proof.
  intros Hm Hw. rewrite writeData_run, Hm, Hw. simpl.
  eexists. split; [reflexivity|]. simpl.
  rewrite <- app_assoc. repeat split.
  intros (tmp & before & Hne & _ & Hcalls).
  destruct before as [|c1 [|c2 [|c3 before]]]; simplify_eq/=.
Qed.

(** Whatever the disk does, [writeData] never calls [rename]. *)
Lemma writeData_never_renames path data st :
  List.filter is_rename
    (calls (Persistent.dsk (snd (Persistent.writeData path data st))))
  = List.filter is_rename (calls (Persistent.dsk st)).
Proof.
  rewrite writeData_run.
  destruct (mkdir_fault (Persistent.dsk st)),
    (write_fault (Persistent.dsk st)); simpl;
    rewrite ?List.filter_app; simpl; by rewrite ?app_nil_r.
Qed.

End Save.

Lemma writeData_writes_target_in_place_witness :
  ∃ st',
    Persistent.writeData Sample.PRODUCTS_FILE [Sample.laptop]
      (Sample.boot Sample.empty_disk) = (Ok true, st') ∧
    calls (Persistent.dsk st')
      = [Mkdir "/srv/app/data";
         WriteFile "/srv/app/data/products.json" (Json [Sample.laptop])].
Proof.
  destruct (writeData_writes_target_in_place Sample.PRODUCTS_FILE
              [Sample.laptop] (Sample.boot Sample.empty_disk))
    as (st' & Hrun & Hcalls & _); [reflexivity|reflexivity|].
  exists st'. split; [exact Hrun|]. rewrite Hcalls. vm_compute. reflexivity.
Defined.

(** C4 fails as stated: saving the sample catalogue makes a [mkdir] and a
    [writeFile] whose path is the target; the calls do not end with a write
    to a temporary file followed by a rename over the target. *)
Lemma writeData_is_not_temp_then_rename :
  let st' := snd (Persistent.writeData Sample.PRODUCTS_FILE
                    [Sample.laptop; Sample.smartphone]
                    (Sample.boot Sample.empty_disk)) in
  calls (Persistent.dsk st')
    = [Mkdir "/srv/app/data";
       WriteFile Sample.PRODUCTS_FILE
         (JSON_stringify [Sample.laptop; Sample.smartphone])] ∧
  ¬ temp_then_rename Sample.PRODUCTS_FILE [Sample.laptop; Sample.smartphone]
      (calls (Persistent.dsk st')).
Proof.
  split; [vm_compute; reflexivity|].
  intros (tmp & before & Hne & _ & Hcalls).
  apply (f_equal (λ l, is_rename <$> last l)) in Hcalls.
  rewrite last_app in Hcalls. vm_compute in Hcalls. discriminate Hcalls.
Qed.

(** ** C5: a snapshot that does not parse *)

Section Startup.
Context (pf sf : string).

Lemma readData_unparsable path defaults st text :
  read_fault (Persistent.dsk st) = None →
  files (Persistent.dsk st) !! path = Some (Unparsable text) →
  Persistent.readData path defaults st
  = (Throw SyntaxError,
     Persistent.with_dsk (logged (ReadFile path) (Persistent.dsk st)) st).
Proof.
  intros Hr Hf.
  unfold Persistent.readData, try_catch, mbind, M_bind, Persistent.on_disk,
    readFile, lift, throw.
  simpl. rewrite Hr, Hf. reflexivity.
Qed.

(** [initializeData] catches whatever the loads throw, so the promise it
    returns is never rejected and the server always goes on to listen. *)
Lemma startup_always_listens st :
  fst (Persistent.startup pf sf st) = Persistent.Listening.
Proof.
  unfold Persistent.startup, Persistent.initializeData, try_catch.
  destruct (@mbind (M Persistent.state) M_bind _ _ _ _ st) as [[u|e] st1];
    reflexivity.
Qed.

(** C5, as the code has it: when the products snapshot exists and does not
    parse, [readData] rethrows the [SyntaxError] of [JSON.parse], but
    [initializeData] catches it and startup goes on: the server listens
    with the default products and students still in memory, the students
    snapshot is not read, and no file is written, so the corrupt file
    stays as it was. *)
Theorem corrupt_snapshot_keeps_defaults st text :
  read_fault (Persistent.dsk st) = None →
  files (Persistent.dsk st) !! pf = Some (Unparsable text) →
  fst (Persistent.readData pf (Persistent.products st) st) = Throw SyntaxError ∧
  Persistent.startup pf sf st
  = (Persistent.Listening,
     Persistent.with_dsk (logged (ReadFile pf) (Persistent.dsk st)) st).
Proof.
  intros Hr Hf. split; [by erewrite readData_unparsable|].
  unfold Persistent.startup, Persistent.initializeData, try_catch.
  unfold mbind at 1, M_bind at 1, Persistent.get_products.
  unfold mbind at 1, M_bind at 1.
  by erewrite readData_unparsable.
Qed.

(** A snapshot that parses is returned once the log line has printed it:
    that takes an array none of whose records has a [toString] property
    of its own. *)
Lemma readData_parsed path defaults st d :
  read_fault (Persistent.dsk st) = None →
  files (Persistent.dsk st) !! path = Some (Json d) →
  interpolate d = Ok tt →
  Persistent.readData path defaults st
  = (Ok d,
     Persistent.with_dsk (logged (ReadFile path) (Persistent.dsk st)) st).
Proof.
  intros Hr Hf Hi.
  unfold Persistent.readData, try_catch, mbind, M_bind, Persistent.on_disk,
    readFile, lift, throw, mret, M_ret.
  simpl. rewrite Hr, Hf. simpl. rewrite Hi. reflexivity.
Qed.

(** A snapshot that parses to records the log line cannot print makes the
    load throw the [TypeError] of the template literal. *)
Lemma readData_unprintable path defaults st d e :
  read_fault (Persistent.dsk st) = None →
  files (Persistent.dsk st) !! path = Some (Json d) →
  interpolate d = Throw e →
  Persistent.readData path defaults st
  = (Throw TypeError,
     Persistent.with_dsk (logged (ReadFile path) (Persistent.dsk st)) st).
Proof.
  intros Hr Hf Hi.
  assert (e = TypeError) as ->.
  { unfold interpolate in Hi. destruct (forallb _ d); congruence. }
  unfold Persistent.readData, try_catch, mbind, M_bind, Persistent.on_disk,
    readFile, lift, throw, mret, M_ret.
  simpl. rewrite Hr, Hf. simpl. rewrite Hi. reflexivity.
Qed.

(** When it is the students snapshot that does not parse, the products
    just loaded (records the log line can print: none has a [toString]
    property of its own) are kept and the default students stay in
    memory. *)
Lemma corrupt_students_snapshot_keeps_defaults st loaded text :
  read_fault (Persistent.dsk st) = None →
  files (Persistent.dsk st) !! pf = Some (Json loaded) →
  interpolate loaded = Ok tt →
  files (Persistent.dsk st) !! sf = Some (Unparsable text) →
  let '(outcome, st') := Persistent.startup pf sf st in
  outcome = Persistent.Listening ∧
  Persistent.products st' = loaded ∧
  Persistent.students st' = Persistent.students st ∧
  files (Persistent.dsk st') = files (Persistent.dsk st).
Proof.
  intros Hr Hp Hi Hs.
  unfold Persistent.startup, Persistent.initializeData, try_catch,
    mbind, M_bind, Persistent.get_products, Persistent.get_students,
    Persistent.set_products, Persistent.set_students, mret, M_ret.
  rewrite (readData_parsed _ _ _ _ Hr Hp Hi). simpl.
  by rewrite (readData_unparsable sf _ _ text) by done.
Qed.

End Startup.

Lemma corrupt_snapshot_keeps_defaults_witness :
  fst (Persistent.readData Sample.PRODUCTS_FILE
         [Sample.laptop; Sample.smartphone]
         (Sample.boot Sample.corrupt_disk)) = Throw SyntaxError ∧
  Persistent.startup Sample.PRODUCTS_FILE Sample.STUDENTS_FILE
    (Sample.boot Sample.corrupt_disk)
  = (Persistent.Listening,
     Persistent.with_dsk
       (logged (ReadFile Sample.PRODUCTS_FILE) Sample.corrupt_disk)
       (Sample.boot Sample.corrupt_disk)).
Proof.
  apply (corrupt_snapshot_keeps_defaults Sample.PRODUCTS_FILE
           Sample.STUDENTS_FILE (Sample.boot Sample.corrupt_disk)
           "[{ id: 1,").
  - reflexivity.
  - vm_compute. reflexivity.
Defined.

(** C5 fails as stated: the products snapshot holds text that does not
    parse, yet startup is not aborted: the server ends up listening, with
    the default catalogue in memory and the corrupt file untouched. *)
Lemma corrupt_snapshot_does_not_abort_startup :
  let st := Sample.boot Sample.corrupt_disk in
  let '(outcome, st') :=
    Persistent.startup Sample.PRODUCTS_FILE Sample.STUDENTS_FILE st in
  files (Persistent.dsk st) !! Sample.PRODUCTS_FILE
    = Some (Unparsable "[{ id: 1,") ∧
  outcome = Persistent.Listening ∧
  outcome ≠ Persistent.Exited 1 ∧
  Persistent.products st' = [Sample.laptop; Sample.smartphone] ∧
  files (Persistent.dsk st') = files (Persistent.dsk st).
Proof.
  vm_compute. repeat split; discriminate.
Qed.

(** ** C6: required fields *)

Section Validation.
Context (pf : string).

Lemma falsy_of_absent v : present_nonempty v = false → truthy v = false.
Proof. by destruct v as [| | | | |[|a s]|]. Qed.

(** C6, as the code has it: the test is [!name || !price ||
    !description].  A product create in which one of the three fields is
    absent, [null] or the empty string is answered with status 400 and the
    one fixed message, which lists all three fields whichever is missing,
    and changes nothing.  A create in which the three fields are all
    truthy (a non-empty string, a non-zero number, [true], an object)
    passes validation: the record is appended, and the answer is 201 with
    that record unless the write to disk throws. *)
Theorem create_validation body st :
  (present_nonempty (field body "name") = false ∨
   present_nonempty (field body "price") = false ∨
   present_nonempty (field body "description") = false →
   Persistent.post_products pf body st
   = (Ok {| status := 400;
            payload := Message "Name, price, and description are required" |},
      st)) ∧
  (truthy (field body "name") = true →
   truthy (field body "price") = true →
   truthy (field body "description") = true →
   ∃ r, Persistent.products (snd (Persistent.post_products pf body st))
          = push r (Persistent.products st) ∧
        (fst (Persistent.post_products pf body st)
           = Ok {| status := 201; payload := Item r |} ∨
         ∃ e, fst (Persistent.post_products pf body st) = Throw e)).
Proof.
  split.
  - intros H. route.
    assert (negb (truthy (field body "name"))
            || negb (truthy (field body "price"))
            || negb (truthy (field body "description")) = true) as ->; [|done].
    destruct H as [H|[H|H]]; apply falsy_of_absent in H; rewrite H;
      by rewrite ?orb_true_r.
  - intros H1 H2 H3. route. rewrite H1, H2, H3. simpl.
    persist res d. eexists. split; [by destruct res|].
    destruct res; simpl; eauto.
Qed.

End Validation.

(** The in-memory server validates with the same test. *)
Lemma in_memory_create_validation body st :
  (present_nonempty (field body "name") = false ∨
   present_nonempty (field body "price") = false ∨
   present_nonempty (field body "description") = false →
   InMemory.post_products body st
   = (Ok {| status := 400;
            payload := Message "Name, price, and description are required" |},
      st)) ∧
  (truthy (field body "name") = true →
   truthy (field body "price") = true →
   truthy (field body "description") = true →
   ∃ r, InMemory.post_products body st
        = (Ok {| status := 201; payload := Item r |},
           {| InMemory.products := push r (InMemory.products st);
              InMemory.students := InMemory.students st |})).
Proof.
  split.
  - intros H. route.
    assert (negb (truthy (field body "name"))
            || negb (truthy (field body "price"))
            || negb (truthy (field body "description")) = true) as ->; [|done].
    destruct H as [H|[H|H]]; apply falsy_of_absent in H; rewrite H;
      by rewrite ?orb_true_r.
  - intros H1 H2 H3. route. rewrite H1, H2, H3. simpl. eauto.
Qed.

Lemma create_validation_witness :
  Persistent.post_products Sample.PRODUCTS_FILE Sample.no_name_body
    (Sample.boot Sample.empty_disk)
  = (Ok {| status := 400;
           payload := Message "Name, price, and description are required" |},
     Sample.boot Sample.empty_disk) ∧
  ∃ r, Persistent.products
         (snd (Persistent.post_products Sample.PRODUCTS_FILE
                 Sample.tablet_body (Sample.boot Sample.empty_disk)))
       = [Sample.laptop; Sample.smartphone; r].
Proof.
  split.
  - apply (create_validation Sample.PRODUCTS_FILE Sample.no_name_body
             (Sample.boot Sample.empty_disk)).
    left. vm_compute. reflexivity.
  - destruct (create_validation Sample.PRODUCTS_FILE Sample.tablet_body
                (Sample.boot Sample.empty_disk)) as [_ H].
    destruct H as (r & Hr & _); [vm_compute; reflexivity..|].
    exists r. exact Hr.
Defined.

(** C6 fails as stated.  A body with a name, a description and the price
    0 has every required field present and non-empty, and is answered with
    the validation error.  And the message does not say which field is
    missing: a body without a name and a body without a description get
    the same answer. *)
Lemma create_validation_rejects_zero_price :
  let st := Sample.boot Sample.empty_disk in
  let invalid :=
    Ok {| status := 400;
          payload := Message "Name, price, and description are required" |} in
  (present_nonempty (field Sample.free_sample_body "name") = true ∧
   present_nonempty (field Sample.free_sample_body "price") = true ∧
   present_nonempty (field Sample.free_sample_body "description") = true ∧
   field Sample.free_sample_body "price" = VNum 0 ∧
   Persistent.post_products Sample.PRODUCTS_FILE Sample.free_sample_body st
     = (invalid, st)) ∧
  (fst (Persistent.post_products Sample.PRODUCTS_FILE Sample.no_name_body st)
     = invalid ∧
   fst (Persistent.post_products Sample.PRODUCTS_FILE
          Sample.no_description_body st) = invalid).
Proof. vm_compute. repeat split. Qed.

(** ** C7: which comparisons ignore case *)

Section Comparisons.
Context (sf : string).

Lemma strict_eq_true a b : strict_eq a b = true → a = b.
Proof.
  unfold strict_eq.
  destruct a, b; try discriminate; intros H; by apply bool_decide_eq_true in H.
Qed.

Lemma strict_eq_same a : a ≠ VNaN → strict_eq a a = true.
Proof.
  intros Ha. unfold strict_eq. destruct a; try done; by apply bool_decide_eq_true.
Qed.

Lemma strict_eq_false a b : a ≠ b → strict_eq a b = false.
Proof.
  intros Hab. destruct (strict_eq a b) eqn:H; [|done].
  by apply strict_eq_true in H.
Qed.






End Comparisons.

(** The in-memory server looks students up and tests uniqueness with the
    same [===]. *)
Lemma in_memory_student_key_is_exact :
  (∀ st id s st',
     InMemory.get_student id st
       = (Ok {| status := 200; payload := Item s |}, st') →
     s ∈ InMemory.students st ∧ field s "studentID" = VStr id) ∧
  (∀ st id,
     (∀ s, s ∈ InMemory.students st → field s "studentID" ≠ VStr id) →
     InMemory.get_student id st
       = (Ok {| status := 404; payload := Message "Student not found" |}, st)).
Proof.
  split.
  - intros st id s st'. route.
    destruct (find _ _) as [x|] eqn:Hf; [|discriminate].
    intros [= <- <-]. apply find_Some in Hf as [Hin Heq].
    split; [done|]. by apply strict_eq_true.
  - intros st id Hno. route.
    assert (find (studentID_is (VStr id)) (InMemory.students st) = None)
      as ->; [|done].
    apply find_None. intros r Hr. by apply strict_eq_false, Hno.
Qed.



(** ** C8: a natural key already taken *)

Section Conflict.
Context (sf : string).

Lemma truthy_not_NaN v : truthy v = true → v ≠ VNaN.
Proof. by intros H ->. Qed.

Lemma find_studentID (ss : list record) s v :
  truthy v = true → s ∈ ss → field s "studentID" = v →
  ∃ x, find (studentID_is v) ss = Some x.
Proof.
  intros Hv Hs Hk. destruct (find (studentID_is v) ss) as [x|] eqn:Hf; [eauto|].
  rewrite find_None in Hf. specialize (Hf s Hs). unfold studentID_is in Hf.
  rewrite Hk, strict_eq_same in Hf; [done|]. by apply truthy_not_NaN.
Qed.

Lemma filter_none (f : record → bool) (l : list record) :
  (∀ x, x ∈ l → f x = false) → List.filter f l = [].
Proof.
  induction l as [|x l IH]; simpl; [done|]. intros H.
  rewrite (H x) by left. apply IH. intros y Hy. apply H. by right.
Qed.

(** C8: when some student in the collection carries the [studentID] that
    a create supplies, the create fails with status 400 and changes
    neither array nor the disk, so the records carrying that key are the
    ones there were; and when the create is otherwise complete (name and
    grade present) the failure is the conflict: the message says that the
    [studentID] must be unique. *)
Theorem duplicate_studentID_is_rejected body st s :
  truthy (field body "studentID") = true →
  s ∈ Persistent.students st →
  field s "studentID" = field body "studentID" →
  ∃ m,
    Persistent.post_students sf body st
      = (Ok {| status := 400; payload := Message m |}, st) ∧
    (truthy (field body "name") = true →
     truthy (field body "grade") = true →
     m = "StudentID must be unique").
Proof.
  intros H3 Hs Hk. route. rewrite H3.
  destruct (find_studentID _ _ _ H3 Hs Hk) as [x Hx].
  destruct (truthy (field body "name")), (truthy (field body "grade")); simpl;
    rewrite ?Hx; eexists; (split; [reflexivity|]); done.
Qed.

(** The scenario of the specification: a create with a fresh key, then a
    second create with the same key.  The second is rejected and exactly
    one record carries the key. *)
Lemma second_create_with_same_key body body' st :
  truthy (field body "name") = true →
  truthy (field body "grade") = true →
  truthy (field body "studentID") = true →
  truthy (field body' "name") = true →
  truthy (field body' "grade") = true →
  field body' "studentID" = field body "studentID" →
  (∀ s, s ∈ Persistent.students st →
        field s "studentID" ≠ field body "studentID") →
  let st1 := snd (Persistent.post_students sf body st) in
  Persistent.post_students sf body' st1
  = (Ok {| status := 400; payload := Message "StudentID must be unique" |},
     st1) ∧
  length (List.filter (studentID_is (field body "studentID"))
            (Persistent.students st1)) = 1%nat.
Proof.
  intros H1 H2 H3 H1' H2' Hk Hfresh st1.
  assert (∃ r, Persistent.students st1 = push r (Persistent.students st) ∧
               field r "studentID" = field body "studentID") as (r & Hst1 & Hr).
  { subst st1. route. rewrite H1, H2, H3. simpl.
    assert (find (studentID_is (field body "studentID"))
              (Persistent.students st) = None) as ->.
    { apply find_None. intros x Hx. by apply strict_eq_false, Hfresh. }
    persist res d. eexists. split; [by destruct res|reflexivity]. }
  split.
  - assert (r ∈ Persistent.students st1) as Hin.
    { rewrite Hst1. unfold push. apply elem_of_app. right. by left. }
    destruct (find_studentID _ _ _ H3 Hin Hr) as [x Hx].
    route. rewrite H1', H2', Hk, H3. simpl. by rewrite Hx.
  - rewrite Hst1. unfold push. rewrite List.filter_app, length_app. simpl.
    unfold studentID_is at 2. rewrite Hr, strict_eq_same by by apply truthy_not_NaN.
    simpl.
    rewrite filter_none; [done|].
    intros x Hx. by apply strict_eq_false, Hfresh.
Qed.

End Conflict.

(** The in-memory server rejects the duplicate in the same way. *)
Lemma in_memory_duplicate_studentID_is_rejected body st s :
  truthy (field body "name") = true →
  truthy (field body "grade") = true →
  truthy (field body "studentID") = true →
  s ∈ InMemory.students st →
  field s "studentID" = field body "studentID" →
  InMemory.post_students body st
  = (Ok {| status := 400; payload := Message "StudentID must be unique" |},
     st).
Proof.
  intros H1 H2 H3 Hs Hk. route. rewrite H1, H2, H3. simpl.
  by destruct (find_studentID _ _ _ H3 Hs Hk) as [x ->].
Qed.

Lemma duplicate_studentID_is_rejected_witness :
  ∃ m,
    Persistent.post_students Sample.STUDENTS_FILE (Sample.bob_body "S1")
      (Sample.boot Sample.empty_disk)
      = (Ok {| status := 400; payload := Message m |},
         Sample.boot Sample.empty_disk) ∧
    (truthy (field (Sample.bob_body "S1") "name") = true →
     truthy (field (Sample.bob_body "S1") "grade") = true →
     m = "StudentID must be unique").
Proof.
  apply (duplicate_studentID_is_rejected Sample.STUDENTS_FILE
           (Sample.bob_body "S1") (Sample.boot Sample.empty_disk) Sample.ada).
  - vm_compute. reflexivity.
  - simpl. left.
  - vm_compute. reflexivity.
Defined.

(** ** C9: what an update touches *)

Section Update.
Context (pf : string).

(** C9: a successful product update answers with the record [new] now
    stored where the first record whose id is [parseInt] of the route
    parameter was; [new] has the id of that record, and every property of
    it other than [name], [price], [description] and [category] is as it
    was; the three required properties are those of the request; every
    other slot of the array, the length of the array and the students are
    unchanged. *)
Theorem update_changes_mutable_fields_only id body st new st' :
  Persistent.put_products pf id body st
    = (Ok {| status := 200; payload := Item new |}, st') →
  ∃ i old,
    find_ref (id_is id) (Persistent.products st) = Some (i, old) ∧
    Persistent.products st' = <[i := new]> (Persistent.products st) ∧
    field new "id" = field old "id" ∧
    (∀ k, k ≠ "name" → k ≠ "price" → k ≠ "description" → k ≠ "category" →
          new !! k = old !! k) ∧
    field new "name" = field body "name" ∧
    field new "price" = field body "price" ∧
    field new "description" = field body "description" ∧
    (∀ j, j ≠ i →
          Persistent.products st' !! j = Persistent.products st !! j) ∧
    length (Persistent.products st') = length (Persistent.products st) ∧
    Persistent.students st' = Persistent.students st.
Proof.
  route. destruct (find_ref _ _) as [[i old]|] eqn:Hf; [|discriminate].
  destruct (_ || _); [discriminate|].
  persist res d. destruct res; [|discriminate].
  intros [= <- <-]. exists i, old. simpl.
  split; [done|]. split; [done|].
  split; [unfold field; by rewrite put_fields_keep|].
  split; [intros k ????; by apply put_fields_keep|].
  split; [eapply put_fields_set; reflexivity|].
  split; [eapply put_fields_set; reflexivity|].
  split; [eapply put_fields_set; reflexivity|].
  split; [intros j Hj; by apply list_lookup_insert_ne|].
  split; [apply length_insert|done].
Qed.

End Update.

(** The in-memory server assigns [name], [price] and [description]. *)
Lemma in_memory_update_changes_mutable_fields_only id body st new st' :
  InMemory.put_products id body st
    = (Ok {| status := 200; payload := Item new |}, st') →
  ∃ i old,
    find_ref (id_is id) (InMemory.products st) = Some (i, old) ∧
    InMemory.products st' = <[i := new]> (InMemory.products st) ∧
    field new "id" = field old "id" ∧
    (∀ k, k ≠ "name" → k ≠ "price" → k ≠ "description" →
          new !! k = old !! k) ∧
    (∀ j, j ≠ i → InMemory.products st' !! j = InMemory.products st !! j) ∧
    InMemory.students st' = InMemory.students st.
Proof.
  route. destruct (find_ref _ _) as [[i old]|] eqn:Hf; [|discriminate].
  destruct (_ || _); [discriminate|].
  intros [= <- <-]. exists i, old. simpl.
  split; [done|]. split; [done|].
  split; [unfold field; by rewrite !lookup_insert_ne|].
  split; [intros k ???; by rewrite !lookup_insert_ne|].
  split; [intros j Hj; by apply list_lookup_insert_ne|done].
Qed.

Lemma update_changes_mutable_fields_only_witness :
  let st := Sample.boot Sample.empty_disk in
  let st' := snd (Persistent.put_products Sample.PRODUCTS_FILE "2"
                    Sample.tablet_body st) in
  ∃ i old,
    find_ref (id_is "2") (Persistent.products st) = Some (i, old) ∧
    Persistent.products st'
      = <[i := Sample.smartphone_as_tablet]> (Persistent.products st) ∧
    field Sample.smartphone_as_tablet "id" = field old "id" ∧
    Persistent.students st' = Persistent.students st.
Proof.
  intros st st'.
  destruct (update_changes_mutable_fields_only Sample.PRODUCTS_FILE "2"
              Sample.tablet_body st Sample.smartphone_as_tablet st')
    as (i & old & Hf & Hp & Hid & _ & _ & _ & _ & _ & _ & Hs).
  - vm_compute. reflexivity.
  - exists i, old. auto.
Defined.

(** ** C10: the category of a product *)

Section Category.
Context (pf : string).

(** C10: a product create that passes validation and whose body has no
    [category] stores a record whose category is the string
    [Uncategorized].  A product update that passes validation and whose
    body has no [category] leaves the matched record with the category it
    had when that category is truthy, and with [Uncategorized] when it had
    none (or an empty one).  Both hold whether or not the write to disk
    that follows succeeds. *)
Theorem category_defaults :
  (∀ body st,
     body !! "category" = None →
     truthy (field body "name") = true →
     truthy (field body "price") = true →
     truthy (field body "description") = true →
     ∃ r, Persistent.products (snd (Persistent.post_products pf body st))
            = push r (Persistent.products st) ∧
          field r "category" = VStr "Uncategorized") ∧
  (∀ id body st i old,
     body !! "category" = None →
     truthy (field body "name") = true →
     truthy (field body "price") = true →
     truthy (field body "description") = true →
     find_ref (id_is id) (Persistent.products st) = Some (i, old) →
     ∃ new, Persistent.products (snd (Persistent.put_products pf id body st))
              = <[i := new]> (Persistent.products st) ∧
            field new "category"
              = if truthy (field old "category") then field old "category"
                else VStr "Uncategorized").
Proof.
  split.
  - intros body st Hc H1 H2 H3. route. rewrite H1, H2, H3. simpl.
    persist res d. eexists. split; [by destruct res|].
    unfold field at 1. simpl. unfold object. simpl.
    rewrite !lookup_insert_ne, lookup_insert_eq by done. simpl.
    unfold field. by rewrite Hc.
  - intros id body st i old Hc H1 H2 H3 Hf. route. rewrite Hf, H1, H2, H3. simpl.
    persist res d. eexists. split; [by destruct res|].
    unfold field at 1. rewrite lookup_insert_eq. simpl.
    unfold field at 1. rewrite Hc. simpl. unfold js_or at 1. simpl.
    unfold field at 1 4. rewrite !lookup_insert_ne by done.
    unfold js_or, field. by destruct (truthy _).
Qed.

End Category.

Lemma category_defaults_witness :
  let st := Sample.shop Sample.empty_disk in
  (∃ r, Persistent.products
          (snd (Persistent.post_products Sample.PRODUCTS_FILE
                  Sample.tablet_body st))
        = [Sample.gadget; Sample.novel; r] ∧
        field r "category" = VStr "Uncategorized") ∧
  (∃ new, Persistent.products
            (snd (Persistent.put_products Sample.PRODUCTS_FILE "2"
                    Sample.tablet_body st))
          = [Sample.gadget; new] ∧
          field new "category" = VStr "Books").
Proof.
  intros st.
  destruct (category_defaults Sample.PRODUCTS_FILE) as [Hcreate Hupdate].
  split.
  - apply (Hcreate Sample.tablet_body st); vm_compute; reflexivity.
  - apply (Hupdate "2" Sample.tablet_body st 1%nat Sample.novel);
      vm_compute; reflexivity.
Defined.

End Props.

(** * Further properties of the two servers *)

Module More.
Import JS Fs Http Spec Requests Props.

(** ** Loading and saving *)

Section Snapshots.
Context (pf sf : string).

Lemma plain_to_json (r : record) : plain r → omap to_json r = r.
Proof.
  intros Hr. apply map_eq. intros k. rewrite lookup_omap.
  destruct (r !! k) as [v|] eqn:Hk; simpl; [|done].
  specialize (Hr k v Hk). simpl in Hr. by destruct v.
Qed.

Lemma stringify_plain (data : list record) :
  Forall plain data → JSON_stringify data = Json data.
Proof.
  intros H. unfold JSON_stringify. f_equal.
  induction H as [|r l Hr Hl IH]; simpl; [done|].
  by rewrite plain_to_json, IH.
Qed.

(** What [readData] does, by the state of the disk. *)
Lemma readData_run path defaults st :
  Persistent.readData path defaults st =
    let st1 := Persistent.with_dsk
                 (logged (ReadFile path) (Persistent.dsk st)) st in
    let seed :=
      match Persistent.writeData path defaults st1 with
      | (Ok _, st2) => (Ok defaults, st2)
      | (Throw e, st2) => (Throw e, st2)
      end in
    match read_fault (Persistent.dsk st) with
    | Some e =>
        if strict_eq (code e) (VStr "ENOENT") then seed else (Throw e, st1)
    | None =>
        match files (Persistent.dsk st) !! path with
        | Some (Json d) =>
            match interpolate d with
            | Ok _ => (Ok d, st1)
            | Throw _ => (Throw TypeError, st1)
            end
        | Some (Unparsable _) => (Throw SyntaxError, st1)
        | None => seed
        end
    end.
Proof.
  unfold Persistent.readData, try_catch, mbind, M_bind, Persistent.on_disk,
    readFile, lift, throw, mret, M_ret.
  simpl.
  destruct (read_fault (Persistent.dsk st)) as [e|]; simpl.
  - by destruct (strict_eq (code e) (VStr "ENOENT")).
  - destruct (files (Persistent.dsk st) !! path) as [[d|t]|]; simpl; try done.
    unfold interpolate. by destruct (forallb _ d).
Qed.

(** Saving a collection and loading the same path gives the collection
    back, and the load writes nothing.  The records are ones the encoding
    gives back as they are (their properties are [null], booleans, numbers
    and strings) and the log line of the load can print (no [toString]
    property of their own). *)
Theorem save_then_load path data defaults st :
  read_fault (Persistent.dsk st) = None →
  mkdir_fault (Persistent.dsk st) = None →
  write_fault (Persistent.dsk st) = None →
  Forall plain data →
  interpolate data = Ok tt →
  let st1 := snd (Persistent.writeData path data st) in
  let loaded := Persistent.readData path defaults st1 in
  fst loaded = Ok data ∧
  files (Persistent.dsk (snd loaded)) = files (Persistent.dsk st1) ∧
  Persistent.products (snd loaded) = Persistent.products st ∧
  Persistent.students (snd loaded) = Persistent.students st.
Proof.
  intros Hr Hm Hw Hplain Hprint st1 loaded. subst loaded st1.
  rewrite writeData_run, Hm, Hw. simpl.
  rewrite readData_run. simpl. rewrite Hr, lookup_insert_eq.
  rewrite (stringify_plain _ Hplain), Hprint. done.
Qed.

(** A first start: with neither snapshot on disk, startup writes the
    default products and the default students to their files and goes on
    with the defaults in memory. *)
Theorem first_start_seeds_snapshots st :
  pf ≠ sf →
  read_fault (Persistent.dsk st) = None →
  mkdir_fault (Persistent.dsk st) = None →
  write_fault (Persistent.dsk st) = None →
  files (Persistent.dsk st) !! pf = None →
  files (Persistent.dsk st) !! sf = None →
  let '(outcome, st') := Persistent.startup pf sf st in
  outcome = Persistent.Listening ∧
  Persistent.products st' = Persistent.products st ∧
  Persistent.students st' = Persistent.students st ∧
  files (Persistent.dsk st')
    = <[sf := JSON_stringify (Persistent.students st)]>
        (<[pf := JSON_stringify (Persistent.products st)]>
           (files (Persistent.dsk st))) ∧
  calls (Persistent.dsk st')
    = (calls (Persistent.dsk st) ++
       [ReadFile pf; Mkdir (dirname pf);
        WriteFile pf (JSON_stringify (Persistent.products st));
        ReadFile sf; Mkdir (dirname sf);
        WriteFile sf (JSON_stringify (Persistent.students st))])%list.
Proof.
  intros Hne Hr Hm Hw Hp Hs.
  unfold Persistent.startup, Persistent.initializeData, try_catch,
    mbind, M_bind, Persistent.get_products, Persistent.get_students,
    Persistent.set_products, Persistent.set_students, mret, M_ret.
  rewrite readData_run. simpl. rewrite Hr, Hp, writeData_run. simpl.
  rewrite Hm, Hw. simpl.
  rewrite readData_run. simpl. rewrite Hr, lookup_insert_ne, Hs by done.
  rewrite writeData_run. simpl. rewrite Hm, Hw. simpl.
  repeat split. by rewrite <- !app_assoc.
Qed.

(** A later start: when both snapshots parse, to records the log line of
    the load can print (none has a [toString] property of its own),
    startup replaces the arrays in memory by the arrays on disk, reads
    each file once and writes nothing. *)
Theorem startup_loads_snapshots st ps ss :
  read_fault (Persistent.dsk st) = None →
  files (Persistent.dsk st) !! pf = Some (Json ps) →
  files (Persistent.dsk st) !! sf = Some (Json ss) →
  interpolate ps = Ok tt →
  interpolate ss = Ok tt →
  let '(outcome, st') := Persistent.startup pf sf st in
  outcome = Persistent.Listening ∧
  Persistent.products st' = ps ∧
  Persistent.students st' = ss ∧
  files (Persistent.dsk st') = files (Persistent.dsk st) ∧
  calls (Persistent.dsk st')
    = (calls (Persistent.dsk st) ++ [ReadFile pf; ReadFile sf])%list.
Proof.
  intros Hr Hp Hs Hip His.
  unfold Persistent.startup, Persistent.initializeData, try_catch,
    mbind, M_bind, Persistent.get_products, Persistent.get_students,
    Persistent.set_products, Persistent.set_students, mret, M_ret.
  rewrite readData_run. simpl. rewrite Hr, Hp, Hip.
  rewrite readData_run. simpl. rewrite Hr, Hs, His. simpl.
  repeat split. by rewrite <- !app_assoc.
Qed.

(** A read error other than [ENOENT] is rethrown, and nothing is written
    in place of the file that could not be read. *)
Theorem readData_rethrows_read_errors path defaults st e :
  read_fault (Persistent.dsk st) = Some e →
  code e ≠ VStr "ENOENT" →
  Persistent.readData path defaults st
  = (Throw e,
     Persistent.with_dsk (logged (ReadFile path) (Persistent.dsk st)) st).
Proof.
  intros Hr He. rewrite readData_run. simpl. rewrite Hr.
  by rewrite strict_eq_false.
Qed.

(** When the file is missing and the defaults cannot be written either,
    the load fails with the error of the write, not with [ENOENT]; the
    arrays in memory and every file other than the one being seeded stay
    as they were. *)
Theorem readData_missing_and_unwritable path defaults st e :
  read_fault (Persistent.dsk st) = None →
  files (Persistent.dsk st) !! path = None →
  mkdir_fault (Persistent.dsk st) = None →
  write_fault (Persistent.dsk st) = Some e →
  let st' := snd (Persistent.readData path defaults st) in
  fst (Persistent.readData path defaults st) = Throw e ∧
  Persistent.products st' = Persistent.products st ∧
  Persistent.students st' = Persistent.students st ∧
  ∀ other, other ≠ path →
    files (Persistent.dsk st') !! other = files (Persistent.dsk st) !! other.
Proof.
  intros Hr Hf Hm Hw. rewrite readData_run. simpl. rewrite Hr, Hf.
  rewrite writeData_run. simpl. rewrite Hm, Hw. simpl.
  repeat split. intros other Hne. by rewrite lookup_insert_ne.
Qed.

(** [writeData] changes no file but its target, whatever the disk does. *)
Theorem writeData_touches_target_only path data st other :
  other ≠ path →
  files (Persistent.dsk (snd (Persistent.writeData path data st))) !! other
  = files (Persistent.dsk st) !! other.
Proof.
  intros Hne. rewrite writeData_run.
  destruct (mkdir_fault (Persistent.dsk st)),
    (write_fault (Persistent.dsk st)); simpl; try done;
    by rewrite lookup_insert_ne.
Qed.

End Snapshots.

Lemma save_then_load_witness :
  let st1 := snd (Persistent.writeData Sample.PRODUCTS_FILE
                    [Sample.gadget; Sample.novel]
                    (Sample.boot Sample.empty_disk)) in
  let loaded := Persistent.readData Sample.PRODUCTS_FILE [] st1 in
  fst loaded = Ok [Sample.gadget; Sample.novel] ∧
  files (Persistent.dsk (snd loaded)) = files (Persistent.dsk st1) ∧
  Persistent.products (snd loaded)
    = Persistent.products (Sample.boot Sample.empty_disk) ∧
  Persistent.students (snd loaded)
    = Persistent.students (Sample.boot Sample.empty_disk).
Proof.
  apply (save_then_load Sample.PRODUCTS_FILE [Sample.gadget; Sample.novel] []
           (Sample.boot Sample.empty_disk)); try reflexivity.
  apply (bool_decide_unpack _). vm_compute. reflexivity.
Defined.

Lemma first_start_seeds_snapshots_witness :
  let st := Sample.boot Sample.empty_disk in
  let '(outcome, st') :=
    Persistent.startup Sample.PRODUCTS_FILE Sample.STUDENTS_FILE st in
  outcome = Persistent.Listening ∧
  Persistent.products st' = Persistent.products st ∧
  Persistent.students st' = Persistent.students st ∧
  files (Persistent.dsk st')
    = <[Sample.STUDENTS_FILE := JSON_stringify (Persistent.students st)]>
        (<[Sample.PRODUCTS_FILE := JSON_stringify (Persistent.products st)]>
           (files (Persistent.dsk st))) ∧
  calls (Persistent.dsk st')
    = (calls (Persistent.dsk st) ++
       [ReadFile Sample.PRODUCTS_FILE; Mkdir (dirname Sample.PRODUCTS_FILE);
        WriteFile Sample.PRODUCTS_FILE
          (JSON_stringify (Persistent.products st));
        ReadFile Sample.STUDENTS_FILE; Mkdir (dirname Sample.STUDENTS_FILE);
        WriteFile Sample.STUDENTS_FILE
          (JSON_stringify (Persistent.students st))])%list.
Proof.
  apply (first_start_seeds_snapshots Sample.PRODUCTS_FILE
           Sample.STUDENTS_FILE (Sample.boot Sample.empty_disk));
    try reflexivity.
  vm_compute. discriminate.
Defined.

Lemma startup_loads_snapshots_witness :
  let st := Sample.boot Sample.stocked_disk in
  let '(outcome, st') :=
    Persistent.startup Sample.PRODUCTS_FILE Sample.STUDENTS_FILE st in
  outcome = Persistent.Listening ∧
  Persistent.products st' = [Sample.gadget; Sample.novel] ∧
  Persistent.students st' = [Sample.ada] ∧
  files (Persistent.dsk st') = files (Persistent.dsk st) ∧
  calls (Persistent.dsk st')
    = (calls (Persistent.dsk st) ++
       [ReadFile Sample.PRODUCTS_FILE; ReadFile Sample.STUDENTS_FILE])%list.
Proof.
  apply (startup_loads_snapshots Sample.PRODUCTS_FILE Sample.STUDENTS_FILE
           (Sample.boot Sample.stocked_disk)).
  - reflexivity.
  - vm_compute. reflexivity.
  - vm_compute. reflexivity.
  - vm_compute. reflexivity.
  - vm_compute. reflexivity.
Defined.

Lemma readData_rethrows_read_errors_witness :
  Persistent.readData Sample.PRODUCTS_FILE [Sample.laptop]
    (Sample.boot Sample.locked_disk)
  = (Throw (SysError "EACCES"),
     Persistent.with_dsk
       (logged (ReadFile Sample.PRODUCTS_FILE) Sample.locked_disk)
       (Sample.boot Sample.locked_disk)).
Proof.
  apply (readData_rethrows_read_errors Sample.PRODUCTS_FILE [Sample.laptop]
           (Sample.boot Sample.locked_disk) (SysError "EACCES")).
  - reflexivity.
  - vm_compute. discriminate.
Defined.

Lemma readData_missing_and_unwritable_witness :
  let st := Sample.boot Sample.full_disk in
  let st' := snd (Persistent.readData Sample.PRODUCTS_FILE [Sample.laptop]
                    st) in
  fst (Persistent.readData Sample.PRODUCTS_FILE [Sample.laptop] st)
    = Throw (SysError "ENOSPC") ∧
  Persistent.products st' = Persistent.products st ∧
  Persistent.students st' = Persistent.students st ∧
  ∀ other, other ≠ Sample.PRODUCTS_FILE →
    files (Persistent.dsk st') !! other = files (Persistent.dsk st) !! other.
Proof.
  apply (readData_missing_and_unwritable Sample.PRODUCTS_FILE [Sample.laptop]
           (Sample.boot Sample.full_disk) (SysError "ENOSPC"));
    reflexivity.
Defined.

Lemma writeData_touches_target_only_witness :
  files (Persistent.dsk
           (snd (Persistent.writeData Sample.PRODUCTS_FILE [Sample.laptop]
                   (Sample.boot Sample.stocked_disk))))
    !! Sample.STUDENTS_FILE
  = files (Persistent.dsk (Sample.boot Sample.stocked_disk))
      !! Sample.STUDENTS_FILE.
Proof.
  apply (writeData_touches_target_only Sample.PRODUCTS_FILE [Sample.laptop]
           (Sample.boot Sample.stocked_disk) Sample.STUDENTS_FILE).
  vm_compute. discriminate.
Defined.

(** ** Requests, answers and the snapshot *)

Section Answers.
Context (pf sf : string).

Lemma writeData_Ok f data st b st' :
  Persistent.writeData f data st = (Ok b, st') →
  files (Persistent.dsk st') !! f = Some (JSON_stringify data) ∧
  Persistent.products st' = Persistent.products st ∧
  Persistent.students st' = Persistent.students st.
Proof.
  rewrite writeData_run.
  destruct (mkdir_fault (Persistent.dsk st)); [discriminate|].
  destruct (write_fault (Persistent.dsk st)); [discriminate|].
  intros [= <- <-]. simpl. by rewrite lookup_insert_eq.
Qed.

Lemma filter_state {S} (f : record → result bool) (l : list record)
    (k : list record → M S response) (st : S) :
  (∀ kept st0, snd (k kept st0) = st0) →
  snd ((lift (filter f l) ≫= k) st) = st.
Proof.
  intros Hk. unfold mbind, M_bind, lift.
  destruct (filter f l); simpl; [apply Hk|done].
Qed.

Lemma handle_get_state r st :
  is_get r = true →
  snd (handle pf sf r st) = st.
Proof.
  destruct r as [q|id| | | |q|id|]; try discriminate; intros _; simpl.
  - unfold Persistent.get_products_route, mbind at 1, M_bind at 1,
      Persistent.get_products.
    destruct (truthy q); [|done]. by apply filter_state.
  - route. by destruct (find _ _).
  - unfold Persistent.get_students_route, mbind at 1, M_bind at 1,
      Persistent.get_students.
    destruct (truthy q); [|done]. by apply filter_state.
  - route. by destruct (find _ _).
Qed.

(** The four [GET] routes leave the arrays and the disk as they are,
    whether they answer or throw. *)
Theorem get_requests_change_nothing r st out st' :
  is_get r = true →
  handle pf sf r st = (out, st') →
  st' = st.
Proof.
  intros Hget Hrun. rewrite <- (handle_get_state r st Hget). by rewrite Hrun.
Qed.

(** A request answered with 400 or 404 has changed nothing: neither array,
    no file, and no call to the file system was made. *)
Theorem refused_request_changes_nothing r st resp st' :
  handle pf sf r st = (Ok resp, st') →
  status resp = 400%Z ∨ status resp = 404%Z →
  st' = st.
Proof.
  intros Hrun Hcode.
  destruct (is_get r) eqn:Hget.
  { rewrite <- (handle_get_state r st Hget). by rewrite Hrun. }
  destruct r as [q|id|body|id body|id|q|id|body]; try discriminate;
    simpl in Hrun; revert Hrun; route.
  - destruct (_ || _); [by intros [= <- <-]|].
    persist res d. destruct res; [|discriminate].
    intros [= <- <-]. simpl in Hcode. by destruct Hcode.
  - destruct (find_ref _ _) as [[i old]|]; [|by intros [= <- <-]].
    destruct (_ || _); [by intros [= <- <-]|].
    persist res d. destruct res; [|discriminate].
    intros [= <- <-]. simpl in Hcode. by destruct Hcode.
  - destruct (findIndex _ _) as [i|]; [|by intros [= <- <-]].
    persist res d. destruct res; [|discriminate].
    intros [= <- <-]. simpl in Hcode. by destruct Hcode.
  - destruct (_ || _); [by intros [= <- <-]|].
    destruct (find _ _); [by intros [= <- <-]|].
    persist res d. destruct res; [|discriminate].
    intros [= <- <-]. simpl in Hcode. by destruct Hcode.
Qed.

(** A mutating request answered with anything but 400 or 404 has been
    saved: the snapshot of the collection it changed holds the encoding of
    that collection as it now is in memory. *)
Theorem accepted_request_is_on_disk r st resp st' :
  handle pf sf r st = (Ok resp, st') →
  is_get r = false →
  status resp ≠ 400%Z → status resp ≠ 404%Z →
  match r with
  | PostStudents _ =>
      files (Persistent.dsk st') !! sf
        = Some (JSON_stringify (Persistent.students st'))
  | _ =>
      files (Persistent.dsk st') !! pf
        = Some (JSON_stringify (Persistent.products st'))
  end.
Proof.
  intros Hrun Hget H400 H404.
  destruct r as [q|id|body|id body|id|q|id|body]; try discriminate;
    simpl in Hrun; revert Hrun; route.
  - destruct (_ || _); [by intros [= <- <-]|].
    destruct (Persistent.writeData _ _ _) as [[b|e] st1] eqn:Hw; [|discriminate].
    intros [= <- <-]. apply writeData_Ok in Hw as (Hf & Hp & _).
    by rewrite Hf, Hp.
  - destruct (find_ref _ _) as [[i old]|]; [|by intros [= <- <-]].
    destruct (_ || _); [by intros [= <- <-]|].
    destruct (Persistent.writeData _ _ _) as [[b|e] st1] eqn:Hw; [|discriminate].
    intros [= <- <-]. apply writeData_Ok in Hw as (Hf & Hp & _).
    by rewrite Hf, Hp.
  - destruct (findIndex _ _) as [i|]; [|by intros [= <- <-]].
    destruct (Persistent.writeData _ _ _) as [[b|e] st1] eqn:Hw; [|discriminate].
    intros [= <- <-]. apply writeData_Ok in Hw as (Hf & Hp & _).
    by rewrite Hf, Hp.
  - destruct (_ || _); [by intros [= <- <-]|].
    destruct (find _ _); [by intros [= <- <-]|].
    destruct (Persistent.writeData _ _ _) as [[b|e] st1] eqn:Hw; [|discriminate].
    intros [= <- <-]. apply writeData_Ok in Hw as (Hf & _ & Hs).
    by rewrite Hf, Hs.
Qed.

End Answers.

(** ** The list routes *)

Section Lists.
Context (pf : string).

Lemma filter_sublist (f : record → result bool) (l kept : list record) :
  filter f l = Ok kept → kept `sublist_of` l.
Proof.
  revert kept. induction l as [|x l IH]; intros kept; simpl.
  - by intros [= <-].
  - destruct (f x) as [b|e]; [|discriminate].
    destruct (filter f l) as [rest|e]; [|discriminate].
    intros [= <-]. specialize (IH rest eq_refl).
    destruct b; [by apply sublist_skip|by apply sublist_cons].
Qed.

Lemma filter_Throw (f : record → result bool) (l : list record) e :
  filter f l = Throw e → ∃ p, p ∈ l ∧ f p = Throw e.
Proof.
  induction l as [|x l IH]; simpl; [discriminate|].
  destruct (f x) as [b|e'] eqn:Hx.
  - destruct (filter f l) as [rest|e']; [discriminate|].
    intros [= ->]. destruct (IH eq_refl) as (p & Hp & Hf).
    exists p. split; [by right|done].
  - intros [= ->]. exists x. split; [left|done].
Qed.

Lemma filter_throws (f : record → result bool) (l : list record) p e :
  p ∈ l → f p = Throw e → ∃ e', filter f l = Throw e'.
Proof.
  intros Hp Hf. induction l as [|x l IH]; [by apply elem_of_nil in Hp|].
  simpl. destruct (f x) as [b|e'] eqn:Hx; [|eauto].
  apply elem_of_cons in Hp as [->|Hp]; [congruence|].
  destruct (IH Hp) as [e' ->]. eauto.
Qed.

(** The guarded callback throws exactly on a truthy field that is not a
    string, and what it throws is a [TypeError]. *)
Lemma matches_Throw key q p e :
  Persistent.matches key (VStr q) p = Throw e ↔
  e = TypeError ∧ unfilterable (field p key) = true.
Proof.
  unfold Persistent.matches, unfilterable.
  destruct (field p key) as [| |[|]|z| |[|a s]|ref]; simpl;
    try destruct (z =? 0)%Z; simpl; split;
    try (intros [= <-]; done); try (by intros [_ ?]); try discriminate;
    by intros [-> _].
Qed.

(** A list route answers with records of the collection, in collection
    order; without a query, or with an empty one, it answers with the
    whole collection. *)
Theorem list_routes_answer_sublists q st resp st' :
  (Persistent.get_products_route q st = (Ok resp, st') →
   status resp = 200%Z ∧
   ∃ kept, payload resp = Items kept ∧
           kept `sublist_of` Persistent.products st ∧
           (truthy q = false → kept = Persistent.products st)) ∧
  (Persistent.get_students_route q st = (Ok resp, st') →
   status resp = 200%Z ∧
   ∃ kept, payload resp = Items kept ∧
           kept `sublist_of` Persistent.students st ∧
           (truthy q = false → kept = Persistent.students st)).
Proof.
  split.
  - unfold Persistent.get_products_route, mbind, M_bind,
      Persistent.get_products, lift, reply, mret, M_ret.
    destruct (truthy q).
    + destruct (filter _ _) as [kept|e] eqn:Hf; [|discriminate].
      intros [= <- <-]. split; [done|]. exists kept.
      split; [done|]. split; [by eapply filter_sublist|done].
    + intros [= <- <-]. split; [done|]. eexists. by repeat split.
  - unfold Persistent.get_students_route, mbind, M_bind,
      Persistent.get_students, lift, reply, mret, M_ret.
    destruct (truthy q).
    + destruct (filter _ _) as [kept|e] eqn:Hf; [|discriminate].
      intros [= <- <-]. split; [done|]. exists kept.
      split; [done|]. split; [by eapply filter_sublist|done].
    + intros [= <- <-]. split; [done|]. eexists. by repeat split.
Qed.

(** The filtered product list throws, and then a [TypeError], exactly when
    some product has a category that is truthy and not a string (a number,
    [true], an object); otherwise it answers 200. *)
Theorem product_filter_throws_on_odd_category q st :
  q ≠ "" →
  (fst (Persistent.get_products_route (VStr q) st) = Throw TypeError ↔
   ∃ p, p ∈ Persistent.products st ∧
        unfilterable (field p "category") = true) ∧
  (fst (Persistent.get_products_route (VStr q) st) = Throw TypeError ∨
   ∃ kept, fst (Persistent.get_products_route (VStr q) st)
           = Ok {| status := 200; payload := Items kept |}).
Proof.
  intros Hq.
  unfold Persistent.get_products_route, mbind, M_bind,
    Persistent.get_products, lift, reply, mret, M_ret.
  assert (truthy (VStr q) = true) as -> by (by destruct q).
  destruct (filter _ _) as [kept|e] eqn:Hf; simpl.
  - split; [|eauto]. split; [discriminate|].
    intros (p & Hp & Hodd).
    destruct (filter_throws (Persistent.matches "category" (VStr q))
                (Persistent.products st) p TypeError Hp) as [e' He'].
    + by apply matches_Throw.
    + congruence.
  - apply filter_Throw in Hf as (p & Hp & Hm).
    apply matches_Throw in Hm as [-> Hodd]. split; [|by left].
    split; [eauto|done].
Qed.

(** What a product create that passes validation leaves in memory. *)
Lemma post_products_stores body st :
  truthy (field body "name") = true →
  truthy (field body "price") = true →
  truthy (field body "description") = true →
  ∃ r, Persistent.products (snd (Persistent.post_products pf body st))
         = push r (Persistent.products st) ∧
       field r "id" = VNum (Z.of_nat (length (Persistent.products st)) + 1) ∧
       field r "name" = field body "name" ∧
       field r "price" = field body "price" ∧
       field r "description" = field body "description" ∧
       field r "category"
         = js_or (field body "category") (VStr "Uncategorized").
Proof.
  intros H1 H2 H3. route. rewrite H1, H2, H3. simpl.
  persist res d. eexists. split; [by destruct res|].
  unfold field, object. simpl. by simplify_map_eq.
Qed.

(** A product created with a category that is truthy and not a string
    makes every later filtered product list throw. *)
Theorem odd_category_breaks_the_filter body q st :
  truthy (field body "name") = true →
  truthy (field body "price") = true →
  truthy (field body "description") = true →
  unfilterable (field body "category") = true →
  q ≠ "" →
  fst (Persistent.get_products_route (VStr q)
         (snd (Persistent.post_products pf body st))) = Throw TypeError.
Proof.
  intros H1 H2 H3 Hodd Hq.
  destruct (post_products_stores body st H1 H2 H3)
    as (r & Hr & _ & _ & _ & _ & Hc).
  unfold Persistent.get_products_route, mbind, M_bind,
    Persistent.get_products, lift, reply, mret, M_ret.
  assert (truthy (VStr q) = true) as -> by (by destruct q).
  rewrite Hr.
  destruct (filter_throws (Persistent.matches "category" (VStr q))
              (push r (Persistent.products st)) r TypeError) as [e He].
  - unfold push. apply elem_of_app. right. by left.
  - apply matches_Throw. split; [done|]. rewrite Hc. unfold js_or.
    unfold unfilterable in Hodd. apply andb_true_iff in Hodd as [Ht Hs].
    rewrite Ht. unfold unfilterable. by rewrite Ht, Hs.
  - rewrite He. simpl. f_equal.
    apply filter_Throw in He as (p & _ & Hm).
    by apply matches_Throw in Hm as [-> _].
Qed.

End Lists.

(** In the in-memory server the callback has no guard and a created
    product has no category: after any accepted product create, every
    filtered product list throws a [TypeError]. *)
Theorem in_memory_filter_throws_after_create body q st :
  truthy (field body "name") = true →
  truthy (field body "price") = true →
  truthy (field body "description") = true →
  truthy q = true →
  fst (InMemory.get_products_route q (snd (InMemory.post_products body st)))
  = Throw TypeError.
Proof.
  intros H1 H2 H3 Hq.
  unfold InMemory.get_products_route, InMemory.post_products.
  rewrite H1, H2, H3, Hq. simpl.
  unfold mbind, M_bind, InMemory.get_products, InMemory.set_products,
    lift, reply, mret, M_ret. simpl.
  match goal with
  | |- context [filter ?f ?l] =>
      assert (∃ e, filter f l = Throw e) as [e He]
  end.
  { eapply filter_throws with (e := TypeError).
    - unfold push. apply elem_of_app. right. by left.
    - unfold InMemory.matches, field, object. simpl.
      by simplify_map_eq. }
  rewrite He. simpl. f_equal.
  apply filter_Throw in He as (p & _ & Hm).
  unfold InMemory.matches in Hm.
  destruct (toLowerCase (field p "category")) eqn:Hp.
  - destruct (toLowerCase q) eqn:Hq'; [discriminate|].
    destruct q; simpl in Hq'; congruence.
  - destruct (field p "category"); simpl in Hp; congruence.
Qed.

(** ** Looking a product up after changing it *)

Section Lookup.
Context (pf : string).

Lemma find_ref_first (f : record → bool) (l : list record) i r :
  l !! i = Some r → f r = true →
  (∀ j r', (j < i)%nat → l !! j = Some r' → f r' = false) →
  find_ref f l = Some (i, r).
Proof.
  revert i. induction l as [|x l IH]; intros [|i]; simpl; try done.
  - by intros [= ->] ->.
  - intros Hi Hr Hbefore. rewrite (Hbefore 0%nat x) by (done || lia).
    rewrite (IH i); [done..|].
    intros j r' Hj Hl. apply (Hbefore (S j) r'); [lia|done].
Qed.

Lemma id_is_NaN id p : parseInt id = VNaN → id_is id p = false.
Proof. unfold id_is. intros ->. by destruct (field p "id"). Qed.

(** A request for an id that no product carries, and so any request whose
    route parameter does not begin with a number, is answered with 404 by
    the lookup, the update and the delete alike; the update answers 404
    even when its body is incomplete; nothing changes. *)
Theorem unknown_id_is_not_found id body st :
  parseInt id = VNaN ∨
  (∀ p, p ∈ Persistent.products st → field p "id" ≠ parseInt id) →
  let not_found :=
    Ok {| status := 404; payload := Message "Product not found" |} in
  Persistent.get_product id st = (not_found, st) ∧
  Persistent.put_products pf id body st = (not_found, st) ∧
  Persistent.delete_products pf id st = (not_found, st).
Proof.
  intros H.
  assert (find_ref (id_is id) (Persistent.products st) = None) as Hnone.
  { apply find_ref_None. intros p Hp. destruct H as [H|H].
    - by apply id_is_NaN.
    - by apply strict_eq_false, H. }
  route. unfold find, findIndex. by rewrite Hnone.
Qed.

(** An update whose body lacks a name, a price or a description is
    answered with 400 when the product exists, and changes nothing. *)
Theorem incomplete_update_is_refused id body st p :
  p ∈ Persistent.products st →
  field p "id" = parseInt id →
  parseInt id ≠ VNaN →
  truthy (field body "name") = false ∨
  truthy (field body "price") = false ∨
  truthy (field body "description") = false →
  Persistent.put_products pf id body st
  = (Ok {| status := 400;
           payload := Message "Name, price, and description are required" |},
     st).
Proof.
  intros Hp Hid Hnum Hbody. route.
  destruct (find_ref _ _) as [[i old]|] eqn:Hf.
  - destruct Hbody as [H|[H|H]]; rewrite H; by rewrite ?orb_true_r.
  - rewrite find_ref_None in Hf. specialize (Hf p Hp). unfold id_is in Hf.
    rewrite Hid, strict_eq_same in Hf; done.
Qed.

(** After a successful update, looking the same id up answers with the
    updated record. *)
Theorem update_then_get id body st new st' :
  Persistent.put_products pf id body st
    = (Ok {| status := 200; payload := Item new |}, st') →
  Persistent.get_product id st'
  = (Ok {| status := 200; payload := Item new |}, st').
Proof.
  route. destruct (find_ref _ _) as [[i old]|] eqn:Hf; [|discriminate].
  destruct (_ || _); [discriminate|].
  persist res d. destruct res; [|discriminate].
  intros [= <- <-]. simpl.
  apply find_ref_Some in Hf as (Hi & Hold & Hbefore).
  unfold find. erewrite find_ref_first; [done| | |].
  - apply list_lookup_insert_eq. by eapply lookup_lt_Some.
  - unfold id_is in *. unfold field at 1. by rewrite put_fields_keep.
  - intros j r' Hj Hl. rewrite list_lookup_insert_ne in Hl by lia. eauto.
Qed.

(** After a successful create, a lookup whose parameter parses to the new
    id answers with the new record, provided no older record already had
    that id. *)
Theorem create_then_get body st r st' id :
  Persistent.post_products pf body st
    = (Ok {| status := 201; payload := Item r |}, st') →
  parseInt id = field r "id" →
  (∀ p, p ∈ Persistent.products st → field p "id" ≠ field r "id") →
  Persistent.get_product id st'
  = (Ok {| status := 200; payload := Item r |}, st').
Proof.
  route. destruct (_ || _); [discriminate|].
  persist res d. destruct res; [|discriminate].
  intros [= <- <-] Hid Hfresh. simpl.
  unfold find. erewrite find_ref_first; [done| | |].
  - unfold push. by rewrite lookup_app_r, Nat.sub_diag.
  - unfold id_is. rewrite Hid. by apply strict_eq_same.
  - intros j r' Hj Hl. unfold push in Hl. rewrite lookup_app_l in Hl by done.
    unfold id_is. rewrite Hid. apply strict_eq_false, Hfresh.
    by eapply list_elem_of_lookup_2.
Qed.

(** A successful delete removes the first record with the id and no other;
    when the ids were pairwise distinct, a lookup of the id then answers
    404. *)
Theorem delete_then_get id st st' :
  Persistent.delete_products pf id st
    = (Ok {| status := 204; payload := NoContent |}, st') →
  (∃ i p, find_ref (id_is id) (Persistent.products st) = Some (i, p) ∧
          Persistent.products st' = delete i (Persistent.products st)) ∧
  (NoDup (ids (Persistent.products st)) →
   Persistent.get_product id st'
   = (Ok {| status := 404; payload := Message "Product not found" |}, st')).
Proof.
  route. unfold findIndex.
  destruct (find_ref _ _) as [[i p]|] eqn:Hf; simpl; [|discriminate].
  persist res d. destruct res; [|discriminate].
  intros [= <-]. simpl. split; [exists i, p; by split|].
  intros Hnd. unfold find.
  assert (find_ref (id_is id) (splice1 i (Persistent.products st)) = None)
    as ->; [|done].
  apply find_ref_Some in Hf as (Hi & Hp & _).
  apply find_ref_None. intros q Hq.
  destruct (id_is id q) eqn:Hq'; [|done]. exfalso.
  apply strict_eq_true in Hp, Hq'.
  unfold splice1 in Hq. apply list_elem_of_lookup in Hq as [j Hj].
  assert (∃ k, k ≠ i ∧ Persistent.products st !! k = Some q) as (k & Hk & Hlk).
  { destruct (decide (j < i)%nat).
    - exists j. split; [lia|]. by rewrite list_lookup_delete_lt in Hj.
    - exists (S j). split; [lia|].
      by rewrite list_lookup_delete_ge in Hj by lia. }
  apply Hk. eapply (NoDup_lookup (ids (Persistent.products st))); [done| |].
  - unfold ids. rewrite list_lookup_fmap, Hlk. simpl. by rewrite Hq', <- Hp.
  - unfold ids. by rewrite list_lookup_fmap, Hi.
Qed.

End Lookup.

(** ** What every sequence of requests preserves *)

Section Sequences.
Context (pf sf : string).

(** What a student create leaves in memory. *)
Lemma post_students_mem body st :
  let st' := snd (Persistent.post_students sf body st) in
  Persistent.products st' = Persistent.products st ∧
  (Persistent.students st' = Persistent.students st ∨
   ∃ r, Persistent.students st' = push r (Persistent.students st) ∧
        field r "id" = VNum (Z.of_nat (length (Persistent.students st)) + 1) ∧
        field r "studentID" = field body "studentID" ∧
        truthy (field body "studentID") = true ∧
        ∀ s, s ∈ Persistent.students st →
             field s "studentID" ≠ field body "studentID").
Proof.
  route. destruct (truthy (field body "name")); simpl; [|by auto].
  destruct (truthy (field body "grade")); simpl; [|by auto].
  destruct (truthy (field body "studentID")) eqn:Hk; simpl; [|by auto].
  destruct (find _ _) as [x|] eqn:Hf; simpl; [by auto|].
  persist res d.
  assert (∀ s, s ∈ Persistent.students st →
               field s "studentID" ≠ field body "studentID") as Hfresh.
  { intros s Hs Heq. rewrite find_None in Hf. specialize (Hf s Hs).
    unfold studentID_is in Hf. rewrite Heq, strict_eq_same in Hf; [done|].
    by apply truthy_not_NaN. }
  destruct res; simpl; (split; [done|]); right; eexists;
    (split; [reflexivity|]); unfold field, object; simpl;
    by simplify_map_eq.
Qed.

(** What each request does to the students. *)
Lemma handle_students r st :
  let st' := snd (handle pf sf r st) in
  Persistent.students st' = Persistent.students st ∨
  ∃ body new,
    r = PostStudents body ∧
    Persistent.students st' = push new (Persistent.students st) ∧
    field new "id" = VNum (Z.of_nat (length (Persistent.students st)) + 1) ∧
    field new "studentID" = field body "studentID" ∧
    ∀ s, s ∈ Persistent.students st →
         field s "studentID" ≠ field new "studentID".
Proof.
  destruct (is_get r) eqn:Hget.
  { left. simpl. by rewrite handle_get_state. }
  destruct r as [q|id|body|id body|id|q|id|body]; try discriminate; simpl.
  - left. apply post_products_mem.
  - left. apply put_products_mem.
  - left. apply delete_products_mem.
  - destruct (post_students_mem body st)
      as [_ [H|(new & H1 & H2 & H3 & _ & H5)]]; [by left|].
    right. exists body, new. rewrite H3. eauto.
Qed.

(** Students are only ever appended, and only with a [studentID] no
    student carries: through any sequence of requests, pairwise distinct
    [studentID]s stay pairwise distinct. *)
Theorem student_keys_stay_distinct rs st :
  NoDup (studentIDs (Persistent.students st)) →
  NoDup (studentIDs (Persistent.students (serve pf sf rs st))).
Proof.
  revert st. induction rs as [|r rs IH]; intros st Hnd; simpl; [done|].
  apply IH.
  destruct (handle_students r st)
    as [->|(body & new & _ & -> & _ & _ & Hfresh)]; [done|].
  unfold studentIDs, push. rewrite map_app. simpl.
  apply NoDup_app. split; [done|]. split; [|apply NoDup_singleton].
  intros v Hv Hv'. apply list_elem_of_singleton in Hv' as ->.
  apply list_elem_of_In, in_map_iff in Hv as (s & Hs & Hin).
  apply (Hfresh s); [by apply list_elem_of_In|done].
Qed.

(** There is no route that deletes a student, so the numbering by
    [length + 1] never repeats an id: through any sequence of requests,
    student ids that are pairwise distinct and at most the number of
    students stay so. *)
Theorem student_ids_stay_distinct rs st :
  NoDup (ids (Persistent.students st)) →
  ids_within_length (Persistent.students st) = true →
  NoDup (ids (Persistent.students (serve pf sf rs st))) ∧
  ids_within_length (Persistent.students (serve pf sf rs st)) = true.
Proof.
  revert st. induction rs as [|r rs IH]; intros st Hnd Hin; simpl; [done|].
  destruct (handle_students r st)
    as [Heq|(body & new & _ & Heq & Hid & _ & _)];
    apply IH; rewrite Heq; try done; by apply push_numbered.
Qed.

Lemma js_or_truthy a b : truthy b = true → truthy (js_or a b) = true.
Proof. unfold js_or. by destruct (truthy a) eqn:H. Qed.

(** What each request does to the products. *)
Lemma handle_products r st :
  let ps := Persistent.products st in
  let ps' := Persistent.products (snd (handle pf sf r st)) in
  ps' = ps ∨
  (∃ new, ps' = push new ps ∧ complete new = true) ∨
  (∃ i new, ps' = <[i := new]> ps ∧ complete new = true) ∨
  (∃ i, ps' = delete i ps).
Proof.
  destruct (is_get r) eqn:Hget.
  { left. simpl. by rewrite handle_get_state. }
  destruct r as [q|id|body|id body|id|q|id|body]; try discriminate; simpl.
  - route.
    destruct (truthy (field body "name")) eqn:H1; simpl; [|by auto].
    destruct (truthy (field body "price")) eqn:H2; simpl; [|by auto].
    destruct (truthy (field body "description")) eqn:H3; simpl; [|by auto].
    persist res d. right. left. eexists. split; [by destruct res|].
    unfold complete, field, object. simpl. simplify_map_eq.
    fold (field body "name") (field body "price") (field body "description")
      (field body "category").
    rewrite H1, H2, H3. simpl. by apply js_or_truthy.
  - route. destruct (find_ref _ _) as [[i old]|]; simpl; [|by auto].
    destruct (truthy (field body "name")) eqn:H1; simpl; [|by auto].
    destruct (truthy (field body "price")) eqn:H2; simpl; [|by auto].
    destruct (truthy (field body "description")) eqn:H3; simpl; [|by auto].
    persist res d. right. right. left. eexists i, _.
    split; [by destruct res|].
    match goal with
    | |- complete ?new = true =>
        destruct (put_fields_set _ _ _ _ _ new eq_refl) as (Hn & Hp & Hd & Hc)
    end.
    unfold complete. rewrite Hn, Hp, Hd, Hc, H1, H2, H3. simpl.
    by apply js_or_truthy, js_or_truthy.
  - destruct (delete_products_mem pf id st) as [_ [H|[i H]]]; [by left|].
    right. right. right. by exists i.
  - left. apply post_students_mem.
Qed.

(** The routes store no product without a name, a price, a description and
    a category: when every product has the four truthy, so does every
    product after any sequence of requests. *)
Theorem products_stay_complete rs st :
  Forall (λ p, complete p = true) (Persistent.products st) →
  Forall (λ p, complete p = true) (Persistent.products (serve pf sf rs st)).
Proof.
  revert st. induction rs as [|r rs IH]; intros st Hall; simpl; [done|].
  apply IH.
  destruct (handle_products r st)
    as [->|[(new & -> & Hnew)|[(i & new & -> & Hnew)|(i & ->)]]]; [done| | |].
  - apply Forall_app. split; [done|]. by apply Forall_singleton.
  - by apply Forall_insert.
  - by apply Forall_delete.
Qed.

(** The two collections do not interfere: a product request changes
    neither the students nor their snapshot, and a student request changes
    neither the products nor theirs. *)
Theorem collections_are_independent r st :
  pf ≠ sf →
  let st' := snd (handle pf sf r st) in
  match r with
  | PostStudents _ =>
      Persistent.products st' = Persistent.products st ∧
      files (Persistent.dsk st') !! pf = files (Persistent.dsk st) !! pf
  | _ =>
      Persistent.students st' = Persistent.students st ∧
      files (Persistent.dsk st') !! sf = files (Persistent.dsk st) !! sf
  end.
Proof.
  intros Hne.
  assert (∀ f data s other, other ≠ f →
            files (Persistent.dsk (snd (Persistent.writeData f data s))) !! other
            = files (Persistent.dsk s) !! other) as Hw.
  { intros f data s other Hof. rewrite writeData_run.
    destruct (mkdir_fault (Persistent.dsk s)),
      (write_fault (Persistent.dsk s)); simpl; try done;
      by rewrite lookup_insert_ne. }
  destruct (is_get r) eqn:Hget.
  { simpl. rewrite handle_get_state by done. by destruct r. }
  destruct r as [q|id|body|id body|id|q|id|body]; try discriminate; simpl.
  - split; [apply post_products_mem|]. route.
    destruct (_ || _); simpl; [done|].
    match goal with
    | |- context [Persistent.writeData ?f ?data ?s] =>
        specialize (Hw f data s sf (not_eq_sym Hne));
        destruct (Persistent.writeData f data s) as [[b|e] s1]
    end; simpl in *; by rewrite Hw.
  - split; [apply put_products_mem|]. route.
    destruct (find_ref _ _) as [[i old]|]; simpl; [|done].
    destruct (_ || _); simpl; [done|].
    match goal with
    | |- context [Persistent.writeData ?f ?data ?s] =>
        specialize (Hw f data s sf (not_eq_sym Hne));
        destruct (Persistent.writeData f data s) as [[b|e] s1]
    end; simpl in *; by rewrite Hw.
  - split; [apply delete_products_mem|]. route.
    destruct (findIndex _ _) as [i|]; simpl; [|done].
    match goal with
    | |- context [Persistent.writeData ?f ?data ?s] =>
        specialize (Hw f data s sf (not_eq_sym Hne));
        destruct (Persistent.writeData f data s) as [[b|e] s1]
    end; simpl in *; by rewrite Hw.
  - split; [apply post_students_mem|]. route.
    destruct (_ || _); simpl; [done|].
    destruct (find _ _); simpl; [done|].
    match goal with
    | |- context [Persistent.writeData ?f ?data ?s] =>
        specialize (Hw f data s pf Hne);
        destruct (Persistent.writeData f data s) as [[b|e] s1]
    end; simpl in *; by rewrite Hw.
Qed.

End Sequences.

(** ** The two servers side by side *)

Lemma matches_agree key q p s :
  q ≠ "" → field p key = VStr s →
  InMemory.matches key (VStr q) p = Persistent.matches key (VStr q) p.
Proof.
  intros Hq Hs. unfold InMemory.matches, Persistent.matches. rewrite Hs.
  destruct s as [|a s]; simpl; [|done].
  f_equal. apply bool_decide_eq_false. intros [= H]. by destruct q.
Qed.

Lemma filter_agree (f g : record → result bool) (l : list record) :
  (∀ p, p ∈ l → f p = g p) → filter f l = filter g l.
Proof.
  induction l as [|x l IH]; intros H; simpl; [done|].
  rewrite (H x) by left. rewrite IH; [done|].
  intros p Hp. apply H. by right.
Qed.

(** On a catalogue in which every product has a string for category, the
    guarded filter of the file-backed server and the unguarded filter of
    the in-memory server give the same answer to every string query. *)
Theorem filters_agree_on_string_categories q (ps ss : list record) d :
  Forall (λ p, ∃ s, field p "category" = VStr s) ps →
  fst (InMemory.get_products_route (VStr q)
         {| InMemory.products := ps; InMemory.students := ss |})
  = fst (Persistent.get_products_route (VStr q)
           {| Persistent.products := ps; Persistent.students := ss;
              Persistent.dsk := d |}).
Proof.
  intros Hall.
  unfold InMemory.get_products_route, Persistent.get_products_route,
    mbind, M_bind, InMemory.get_products, Persistent.get_products,
    lift, reply, mret, M_ret.
  destruct q as [|a q]; [done|]. simpl.
  rewrite (filter_agree (InMemory.matches "category" (VStr (String a q)))
             (Persistent.matches "category" (VStr (String a q))) ps).
  - by destruct (filter _ ps).
  - intros p Hp. rewrite Forall_forall in Hall.
    destruct (Hall p Hp) as [s Hs]. by eapply matches_agree.
Qed.

(** ** The properties above on the sample data *)

Lemma get_requests_change_nothing_witness :
  snd (handle Sample.PRODUCTS_FILE Sample.STUDENTS_FILE
         (GetProducts (VStr "books")) (Sample.shop Sample.empty_disk))
  = Sample.shop Sample.empty_disk.
Proof.
  eapply (get_requests_change_nothing Sample.PRODUCTS_FILE
            Sample.STUDENTS_FILE (GetProducts (VStr "books"))).
  - reflexivity.
  - apply surjective_pairing.
Defined.

Lemma refused_request_changes_nothing_witness :
  snd (handle Sample.PRODUCTS_FILE Sample.STUDENTS_FILE
         (PostProducts Sample.no_name_body) (Sample.boot Sample.empty_disk))
  = Sample.boot Sample.empty_disk.
Proof.
  eapply (refused_request_changes_nothing Sample.PRODUCTS_FILE
            Sample.STUDENTS_FILE (PostProducts Sample.no_name_body)
            (Sample.boot Sample.empty_disk)
            {| status := 400;
               payload :=
                 Message "Name, price, and description are required" |}).
  - vm_compute. reflexivity.
  - left. reflexivity.
Defined.

Lemma accepted_request_is_on_disk_witness :
  let st' := snd (handle Sample.PRODUCTS_FILE Sample.STUDENTS_FILE
                    (PostProducts Sample.tablet_body)
                    (Sample.boot Sample.empty_disk)) in
  files (Persistent.dsk st') !! Sample.PRODUCTS_FILE
  = Some (JSON_stringify (Persistent.products st')).
Proof.
  intros st'.
  apply (accepted_request_is_on_disk Sample.PRODUCTS_FILE
           Sample.STUDENTS_FILE (PostProducts Sample.tablet_body)
           (Sample.boot Sample.empty_disk)
           {| status := 201; payload := Item Sample.tablet |} st').
  - vm_compute. reflexivity.
  - reflexivity.
  - discriminate.
  - discriminate.
Defined.

Lemma list_routes_answer_sublists_witness :
  ∃ kept, Items [Sample.novel] = Items kept ∧
          kept `sublist_of` [Sample.gadget; Sample.novel] ∧
          (truthy (VStr "books") = false → kept = [Sample.gadget; Sample.novel]).
Proof.
  destruct (list_routes_answer_sublists (VStr "books")
              (Sample.shop Sample.empty_disk)
              {| status := 200; payload := Items [Sample.novel] |}
              (Sample.shop Sample.empty_disk)) as [Hproducts _].
  destruct Hproducts as [_ H]; [vm_compute; reflexivity|exact H].
Defined.

Lemma product_filter_throws_on_odd_category_witness :
  let st := Sample.shop Sample.empty_disk in
  (fst (Persistent.get_products_route (VStr "books") st) = Throw TypeError ↔
   ∃ p, p ∈ Persistent.products st ∧
        unfilterable (field p "category") = true) ∧
  (fst (Persistent.get_products_route (VStr "books") st) = Throw TypeError ∨
   ∃ kept, fst (Persistent.get_products_route (VStr "books") st)
           = Ok {| status := 200; payload := Items kept |}).
Proof.
  apply (product_filter_throws_on_odd_category "books"
           (Sample.shop Sample.empty_disk)).
  discriminate.
Defined.

Lemma odd_category_breaks_the_filter_witness :
  fst (Persistent.get_products_route (VStr "books")
         (snd (Persistent.post_products Sample.PRODUCTS_FILE Sample.odd_body
                 (Sample.shop Sample.empty_disk)))) = Throw TypeError.
Proof.
  apply (odd_category_breaks_the_filter Sample.PRODUCTS_FILE Sample.odd_body
           "books" (Sample.shop Sample.empty_disk));
    try (vm_compute; reflexivity).
  discriminate.
Defined.

Lemma in_memory_filter_throws_after_create_witness :
  fst (InMemory.get_products_route (VStr "books")
         (snd (InMemory.post_products Sample.tablet_body Sample.catalogue)))
  = Throw TypeError.
Proof.
  apply (in_memory_filter_throws_after_create Sample.tablet_body
           (VStr "books") Sample.catalogue); vm_compute; reflexivity.
Defined.

Lemma unknown_id_is_not_found_witness :
  let st := Sample.boot Sample.empty_disk in
  let not_found :=
    Ok {| status := 404; payload := Message "Product not found" |} in
  Persistent.get_product "abc" st = (not_found, st) ∧
  Persistent.put_products Sample.PRODUCTS_FILE "abc" Sample.no_name_body st
    = (not_found, st) ∧
  Persistent.delete_products Sample.PRODUCTS_FILE "abc" st = (not_found, st).
Proof.
  apply (unknown_id_is_not_found Sample.PRODUCTS_FILE "abc"
           Sample.no_name_body (Sample.boot Sample.empty_disk)).
  left. vm_compute. reflexivity.
Defined.

Lemma incomplete_update_is_refused_witness :
  Persistent.put_products Sample.PRODUCTS_FILE "1" Sample.no_name_body
    (Sample.boot Sample.empty_disk)
  = (Ok {| status := 400;
           payload := Message "Name, price, and description are required" |},
     Sample.boot Sample.empty_disk).
Proof.
  apply (incomplete_update_is_refused Sample.PRODUCTS_FILE "1"
           Sample.no_name_body (Sample.boot Sample.empty_disk) Sample.laptop).
  - simpl. left.
  - vm_compute. reflexivity.
  - vm_compute. discriminate.
  - left. vm_compute. reflexivity.
Defined.

Lemma update_then_get_witness :
  let st' := snd (Persistent.put_products Sample.PRODUCTS_FILE "2"
                    Sample.tablet_body (Sample.boot Sample.empty_disk)) in
  Persistent.get_product "2" st'
  = (Ok {| status := 200; payload := Item Sample.smartphone_as_tablet |}, st').
Proof.
  intros st'.
  apply (update_then_get Sample.PRODUCTS_FILE "2" Sample.tablet_body
           (Sample.boot Sample.empty_disk)).
  vm_compute. reflexivity.
Defined.

Lemma create_then_get_witness :
  let st' := snd (Persistent.post_products Sample.PRODUCTS_FILE
                    Sample.tablet_body (Sample.boot Sample.empty_disk)) in
  Persistent.get_product "3" st'
  = (Ok {| status := 200; payload := Item Sample.tablet |}, st').
Proof.
  intros st'.
  apply (create_then_get Sample.PRODUCTS_FILE Sample.tablet_body
           (Sample.boot Sample.empty_disk)).
  - vm_compute. reflexivity.
  - vm_compute. reflexivity.
  - intros p Hp. simpl in Hp.
    apply elem_of_cons in Hp as [->|Hp];
      [|apply list_elem_of_singleton in Hp as ->]; vm_compute; discriminate.
Defined.

Lemma delete_then_get_witness :
  let st' := snd (Persistent.delete_products Sample.PRODUCTS_FILE "1"
                    (Sample.boot Sample.empty_disk)) in
  Persistent.get_product "1" st'
  = (Ok {| status := 404; payload := Message "Product not found" |}, st').
Proof.
  intros st'.
  destruct (delete_then_get Sample.PRODUCTS_FILE "1"
              (Sample.boot Sample.empty_disk) st') as [_ H].
  - vm_compute. reflexivity.
  - apply H. apply (bool_decide_unpack _). vm_compute. reflexivity.
Defined.

Lemma student_keys_stay_distinct_witness :
  NoDup (studentIDs (Persistent.students
    (serve Sample.PRODUCTS_FILE Sample.STUDENTS_FILE
       [PostStudents (Sample.bob_body "S2");
        PostStudents (Sample.bob_body "S2");
        DeleteProducts "1"; PostStudents (Sample.bob_body "S1")]
       (Sample.boot Sample.empty_disk)))).
Proof.
  apply student_keys_stay_distinct.
  apply (bool_decide_unpack _). vm_compute. reflexivity.
Defined.

Lemma student_ids_stay_distinct_witness :
  let st' := serve Sample.PRODUCTS_FILE Sample.STUDENTS_FILE
               [PostStudents (Sample.bob_body "S2");
                PostStudents (Sample.bob_body "S3"); GetStudent "S2"]
               (Sample.boot Sample.full_disk) in
  NoDup (ids (Persistent.students st')) ∧
  ids_within_length (Persistent.students st') = true.
Proof.
  apply student_ids_stay_distinct.
  - apply (bool_decide_unpack _). vm_compute. reflexivity.
  - reflexivity.
Defined.

Lemma products_stay_complete_witness :
  Forall (λ p, complete p = true)
    (Persistent.products
       (serve Sample.PRODUCTS_FILE Sample.STUDENTS_FILE
          [PostProducts Sample.tablet_body; PutProducts "1" Sample.odd_body;
           DeleteProducts "2"]
          (Sample.shop Sample.empty_disk))).
Proof.
  apply products_stay_complete.
  apply (bool_decide_unpack _). vm_compute. reflexivity.
Defined.

Lemma collections_are_independent_witness :
  let st := Sample.boot Sample.stocked_disk in
  let st' := snd (handle Sample.PRODUCTS_FILE Sample.STUDENTS_FILE
                    (DeleteProducts "1") st) in
  Persistent.students st' = Persistent.students st ∧
  files (Persistent.dsk st') !! Sample.STUDENTS_FILE
    = files (Persistent.dsk st) !! Sample.STUDENTS_FILE.
Proof.
  apply (collections_are_independent Sample.PRODUCTS_FILE
           Sample.STUDENTS_FILE (DeleteProducts "1")
           (Sample.boot Sample.stocked_disk)).
  vm_compute. discriminate.
Defined.

Lemma filters_agree_on_string_categories_witness :
  fst (InMemory.get_products_route (VStr "BOOKS")
         {| InMemory.products := [Sample.gadget; Sample.novel];
            InMemory.students := [] |})
  = fst (Persistent.get_products_route (VStr "BOOKS")
           {| Persistent.products := [Sample.gadget; Sample.novel];
              Persistent.students := [];
              Persistent.dsk := Sample.empty_disk |}).
Proof.
  apply filters_agree_on_string_categories.
  repeat constructor; eexists; vm_compute; reflexivity.
Defined.

Lemma corrupt_students_snapshot_witness :
  let '(outcome, st') :=
    Persistent.startup Sample.PRODUCTS_FILE Sample.STUDENTS_FILE
      (Sample.boot Sample.half_corrupt_disk) in
  outcome = Persistent.Listening ∧
  Persistent.products st' = [Sample.gadget; Sample.novel] ∧
  Persistent.students st'
    = Persistent.students (Sample.boot Sample.half_corrupt_disk) ∧
  files (Persistent.dsk st')
    = files (Persistent.dsk (Sample.boot Sample.half_corrupt_disk)).
Proof.
  apply (corrupt_students_snapshot_keeps_defaults Sample.PRODUCTS_FILE
           Sample.STUDENTS_FILE (Sample.boot Sample.half_corrupt_disk)
           [Sample.gadget; Sample.novel] "[{").
  - reflexivity.
  - vm_compute. reflexivity.
  - vm_compute. reflexivity.
  - vm_compute. reflexivity.
Defined.

Lemma second_create_with_same_key_witness :
  let st1 := snd (Persistent.post_students Sample.STUDENTS_FILE
                    (Sample.bob_body "S2") (Sample.boot Sample.empty_disk)) in
  Persistent.post_students Sample.STUDENTS_FILE (Sample.bob_body "S2") st1
  = (Ok {| status := 400; payload := Message "StudentID must be unique" |},
     st1) ∧
  length (List.filter
            (studentID_is (field (Sample.bob_body "S2") "studentID"))
            (Persistent.students st1)) = 1%nat.
Proof.
  apply (second_create_with_same_key Sample.STUDENTS_FILE
           (Sample.bob_body "S2") (Sample.bob_body "S2")
           (Sample.boot Sample.empty_disk)); try (vm_compute; reflexivity).
  intros s Hs. apply list_elem_of_singleton in Hs as ->.
  vm_compute. discriminate.
Defined.

End More.
